(** * op-superchain backend: message safety verification

    A shallow embedding of [op-superchain/backend.go]: the peer connection
    registry, the finalized head tracker and the [MessageSafety] verifier,
    together with the properties the specification states about them.

    Conventions.
    - Go's [uint64] values are integers of [Z] in the range [0, 2^64);
      big integers ([big.Int]) are unbounded integers of [Z].
    - Every call into a collaborator (RPC dial, batched call, finalized
      reference fetch, logger, mutex) is recorded as an [event] in the trace
      of the [World]; the answer of a collaborator is given by an [Env],
      which may depend on everything that happened before the call.
    - A Go panic (index out of range, nil dereference) is an explicit
      outcome [Panic], distinct from a returned [(label, error)] pair. *)

From Stdlib Require Import ZArith String HexString List Lia.
From Stdlib.Strings Require Import Byte.
From stdpp Require Import gmap strings list fin_maps pretty.

Open Scope Z_scope.

#[global] Instance byte_eq_decision : EqDecision byte := Byte.byte_eq_dec.

(** ** Values of the Go runtime and of the libraries the backend uses *)

(** [uint64]: the range of the unsigned 64-bit fields. *)
Definition uint64 (x : Z) : Prop := 0 <= x < 2 ^ 64.

(** The message of an error returned by a collaborator. *)
Definition cause : Type := string.

Module big.
(** [Uint64] of a big integer: the low 64 bits of the magnitude of [x]. *)
Definition Uint64 (x : Z) : Z := Z.abs x mod 2 ^ 64.
End big.

Module hexutil.
(** [hexutil.EncodeBig]: hex with a 0x prefix, a leading minus sign for
    negative numbers. *)
Definition EncodeBig (x : Z) : string := HexString.of_Z x.
End hexutil.

Module common.
(** [common.Address] is a 20 byte array. *)
Definition Address : Type := list byte.
End common.

Module types.
(** [types.Header]: the field the verifier reads. *)
Record Header : Type := { Time : Z }.

(** [types.Log]: emitting address, topics, data and the index of the log
    in its block. *)
Record Log : Type := {
  Address : common.Address;
  Topics : list (list byte);
  Data : list byte;
  Index : Z
}.
End types.

Module eth.
Inductive BlockLabel : Type := Unsafe | Safe | Finalized.

Record L1BlockRef : Type := {
  Hash : list byte;
  Number : Z;
  ParentHash : list byte;
  Time : Z
}.
End eth.

Module time.
(** [time.Duration] counts nanoseconds. *)
Definition Second : Z := 1000000000.
Definition Minute : Z := 60 * Second.
End time.

Module client.
(** [client.RPC]: an established connection, named by a handle; how it
    answers is decided by the environment. *)
Definition RPC : Type := nat.
End client.

Module sources.
Definition L1Client : Type := nat.

Record EthClientConfig : Type := {
  TrustRPC : bool;
  MaxConcurrentRequests : Z;
  MaxRequestsPerBatch : Z;
  TransactionsCacheSize : Z;
  HeadersCacheSize : Z;
  PayloadsCacheSize : Z;
  RPCProviderKind : string;
  MethodResetDuration : Z
}.

(** The embedded [EthClientConfig] is the field [ClientConfig]. *)
Record L1ClientConfig : Type := {
  L1BlockRefsCacheSize : Z;
  ClientConfig : EthClientConfig
}.

Definition RPCKindAny : string := "any".
End sources.

Module rpc.
(** An argument of a JSON-RPC call. *)
Inductive Arg : Type :=
| ArgString (s : string)
| ArgBool (b : bool)
| ArgObject (o : gmap string string).

(** The request half of [rpc.BatchElem]. *)
Record BatchElem : Type := { Method : string; Args : list Arg }.

(** What one round trip of [BatchCallContext] leaves behind for the two
    elements the verifier sends: the error of the call as a whole, the
    [Error] field of each element, and the values written through the two
    [Result] pointers ([header] stays nil on a JSON null). *)
Record BatchResult : Type := {
  call_error : option cause;
  Error0 : option cause;
  Error1 : option cause;
  header : option types.Header;
  logs : list types.Log
}.
End rpc.

(** ** Data model of the package *)

(** Modelled from the spec: the declaration of [MessageIdentifier] is not in
    backend.go. The fields and their kinds are those of section 3; the code
    reads [ChainId] and [BlockNumber] as big integers, [LogIndex] and
    [Timestamp] as [uint64], [Origin] as an address. *)
Record MessageIdentifier : Type := {
  Origin : common.Address;
  BlockNumber : Z;
  LogIndex : Z;
  Timestamp : Z;
  ChainId : Z
}.

(** The ranges of the fields of an identifier: every field is unsigned, the
    two [uint64] fields are below [2^64]. *)
Record wf_identifier (id : MessageIdentifier) : Prop := {
  wf_BlockNumber : 0 <= BlockNumber id;
  wf_LogIndex : uint64 (LogIndex id);
  wf_Timestamp : uint64 (Timestamp id);
  wf_ChainId : 0 <= ChainId id
}.

(** Modelled from the spec: the declaration of [MessageSafetyLabel] is not in
    backend.go. These are the two variants the spec names and the code
    returns. *)
Inductive MessageSafetyLabel : Type := Invalid | Finalized.

#[global] Instance MessageSafetyLabel_eq_dec : EqDecision MessageSafetyLabel.
Proof. solve_decision. Defined.

(** [MessagePayloadBytes] is declared outside backend.go: the encoding of a
    log entry as payload bytes is an interface the verifier is given. *)
Class PayloadEncoding : Type :=
  MessagePayloadBytes : types.Log -> list byte.

(** [bytes.Equal]: same length and same bytes. *)
Definition bytes_Equal (a b : list byte) : bool := bool_decide (a = b).

(** The errors [backend.go] builds with [fmt.Errorf], one constructor per
    call site, carrying the values that are formatted into the message. *)
Inductive error : Type :=
| ErrConnectL2 (err : cause)
| ErrConnectPeer (chainId : Z) (err : cause)
| ErrConstructL2Client (err : cause)
| ErrQueryFinalized (err : cause)
| ErrPeerNotConfigured (chainId : Z)
| ErrRequestLogs (err : cause)
| ErrBatchFailures (getBlockByNumber getLogs : option cause)
| ErrBlockNotExist (blockNumber : Z)
| ErrInvalidLogIndex
| ErrLogIndexMismatch
| ErrPayloadMismatch
| ErrOriginMismatch
| ErrTimestampMismatch.

(** [%w] applied to an error value that may be nil. *)
Definition fmt_w (e : option cause) : string :=
  match e with
  | Some c => c
  | None => "%!w(<nil>)"
  end.

(** [Error()]: the message of each error. *)
Definition Error (e : error) : string :=
  match e with
  | ErrConnectL2 err => "failed to connect to L2 node: " +:+ err
  | ErrConnectPeer chainId err =>
      "failed to connect to Peer L2 node, " +:+ pretty chainId +:+ ": " +:+ err
  | ErrConstructL2Client err => "failed to construct l2 client: " +:+ err
  | ErrQueryFinalized err => "failed to query finalized block ref: " +:+ err
  | ErrPeerNotConfigured chainId =>
      "peer with chain id " +:+ pretty chainId +:+ " is not configured"
  | ErrRequestLogs err => "unable to request logs: " +:+ err
  | ErrBatchFailures e0 e1 =>
      "caught batch rpc failures: getBlockByNumber: " +:+ fmt_w e0
        +:+ ", getLogs: " +:+ fmt_w e1
  | ErrBlockNotExist n => "block " +:+ pretty n +:+ " does not exist"
  | ErrInvalidLogIndex => "invalid log index"
  | ErrLogIndexMismatch => "message log index mismatch"
  | ErrPayloadMismatch => "message payload bytes mismatch"
  | ErrOriginMismatch => "message origin mismatch"
  | ErrTimestampMismatch => "message timestamp mismatch"
  end.

(** The [backend] struct. The logger and the mutex carry no data; taking and
    releasing the mutex are events of the trace. *)
Record backend : Type := {
  l2FinalizedHeadSub : option nat;
  l2FinalizedBlockRef : option eth.L1BlockRef;
  l2PeerNodes : gmap Z client.RPC
}.

(** [SuperchainConfig]: the two fields the constructor reads. *)
Record SuperchainConfig : Type := {
  L2NodeAddr : string;
  PeerL2NodeAddrs : gmap Z string
}.

(** ** Effects *)

Inductive event : Type :=
| EvLog (level msg : string) (ctx : list (string * Z))
| EvNewRPC (addr : string) (r : cause + client.RPC)
| EvNewL1Client (node : client.RPC) (cfg : sources.L1ClientConfig)
    (r : cause + sources.L1Client)
| EvL1BlockRefByLabel (c : sources.L1Client) (label : eth.BlockLabel)
    (r : cause + eth.L1BlockRef)
| EvPollBlockChanges (c : sources.L1Client) (label : eth.BlockLabel)
    (interval timeout : Z)
| EvBatchCallContext (node : client.RPC) (elems : list rpc.BatchElem)
    (r : rpc.BatchResult)
| EvLock
| EvUnlock
| EvRLock
| EvRUnlock.

(** The collaborators. Each answer may depend on the events so far. *)
Record Env : Type := {
  env_NewRPC : list event -> string -> cause + client.RPC;
  env_NewL1Client :
    list event -> client.RPC -> sources.L1ClientConfig -> cause + sources.L1Client;
  env_L1BlockRefByLabel :
    list event -> sources.L1Client -> eth.BlockLabel -> cause + eth.L1BlockRef;
  env_PollBlockChanges : list event -> nat;
  env_BatchCallContext :
    list event -> client.RPC -> list rpc.BatchElem -> rpc.BatchResult
}.

(** The backend object and the trace of events. *)
Record World : Type := { w_backend : backend; w_trace : list event }.

Inductive res (A : Type) : Type :=
| Val (a : A)
| Panic (msg : string).
Arguments Val {A} a.
Arguments Panic {A} msg.

(** State passing over the world, stopping at a panic. *)
Definition M (A : Type) : Type := World -> res A * World.

Definition ret {A : Type} (a : A) : M A := fun w => (Val a, w).

Definition bind {A B : Type} (m : M A) (k : A -> M B) : M B :=
  fun w =>
    match m w with
    | (Val a, w') => k a w'
    | (Panic msg, w') => (Panic msg, w')
    end.

#[global] Instance M_ret : MRet M := @ret.
#[global] Instance M_bind : MBind M := fun A B k m => bind m k.

Definition panic {A : Type} (msg : string) : M A := fun w => (Panic msg, w).

Definition emit (e : event) : M unit :=
  fun w => (Val tt, {| w_backend := w_backend w; w_trace := w_trace w ++ [e] |}).

Definition history : M (list event) := fun w => (Val (w_trace w), w).

Definition get_backend : M backend := fun w => (Val (w_backend w), w).

Definition put_backend (b : backend) : M unit :=
  fun w => (Val tt, {| w_backend := b; w_trace := w_trace w |}).

Definition index_out_of_range : string := "runtime error: index out of range".
Definition nil_dereference : string :=
  "runtime error: invalid memory address or nil pointer dereference".

(** [l[i]] for an unsigned [i]: a panic when [i] is not below [len(l)]. *)
Definition index {A : Type} (l : list A) (i : Z) : M A :=
  match l !! Z.to_nat i with
  | Some x => ret x
  | None => panic index_out_of_range
  end.

(** Dereference of a pointer that may be nil. *)
Definition deref {A : Type} (p : option A) : M A :=
  match p with
  | Some x => ret x
  | None => panic nil_dereference
  end.

(** ** The program *)

(** The value of the interface type [SuperchainBackend] the constructor
    returns on success: the pointer to the backend of the world. *)
Inductive SuperchainBackend : Type := this_backend.

Definition set_l2PeerNodes (nodes : gmap Z client.RPC) (b : backend) : backend :=
  {| l2FinalizedHeadSub := l2FinalizedHeadSub b;
     l2FinalizedBlockRef := l2FinalizedBlockRef b;
     l2PeerNodes := nodes |}.

Definition set_l2FinalizedBlockRef (p : option eth.L1BlockRef) (b : backend)
  : backend :=
  {| l2FinalizedHeadSub := l2FinalizedHeadSub b;
     l2FinalizedBlockRef := p;
     l2PeerNodes := l2PeerNodes b |}.

Definition set_l2FinalizedHeadSub (s : option nat) (b : backend) : backend :=
  {| l2FinalizedHeadSub := s;
     l2FinalizedBlockRef := l2FinalizedBlockRef b;
     l2PeerNodes := l2PeerNodes b |}.

Definition modify_backend (f : backend -> backend) : M unit :=
  b ← get_backend; put_backend (f b).

Section Program.
Context (env : Env) {enc : PayloadEncoding}.

(** *** Collaborator calls *)

Definition log_Info (msg : string) (ctx : list (string * Z)) : M unit :=
  emit (EvLog "info" msg ctx).

Definition log_Warn (msg : string) (ctx : list (string * Z)) : M unit :=
  emit (EvLog "warn" msg ctx).

Definition client_NewRPC (addr : string) : M (cause + client.RPC) :=
  h ← history;
  let r := env_NewRPC env h addr in
  emit (EvNewRPC addr r);; mret r.

Definition sources_NewL1Client (node : client.RPC)
    (cfg : sources.L1ClientConfig) : M (cause + sources.L1Client) :=
  h ← history;
  let r := env_NewL1Client env h node cfg in
  emit (EvNewL1Client node cfg r);; mret r.

Definition L1BlockRefByLabel (c : sources.L1Client) (label : eth.BlockLabel)
  : M (cause + eth.L1BlockRef) :=
  h ← history;
  let r := env_L1BlockRefByLabel env h c label in
  emit (EvL1BlockRefByLabel c label r);; mret r.

Definition eth_PollBlockChanges (c : sources.L1Client)
    (label : eth.BlockLabel) (interval timeout : Z) : M nat :=
  h ← history;
  emit (EvPollBlockChanges c label interval timeout);;
  mret (env_PollBlockChanges env h).

Definition BatchCallContext (node : client.RPC) (elems : list rpc.BatchElem)
  : M rpc.BatchResult :=
  h ← history;
  let r := env_BatchCallContext env h node elems in
  emit (EvBatchCallContext node elems r);; mret r.

(** *** NewSuperchainBackend *)

Definition l2ClientConfig : sources.L1ClientConfig :=
  {| sources.L1BlockRefsCacheSize := 10;
     sources.ClientConfig :=
       {| sources.TrustRPC := true;
          sources.MaxConcurrentRequests := 10;
          sources.MaxRequestsPerBatch := 10;
          sources.TransactionsCacheSize := 10;
          sources.HeadersCacheSize := 10;
          sources.PayloadsCacheSize := 10;
          sources.RPCProviderKind := sources.RPCKindAny;
          sources.MethodResetDuration := time.Minute |} |}.

(** The loop over [cfg.PeerL2NodeAddrs], on the entries in the order the
    runtime visits them: the first failed dial ends the constructor. *)
Fixpoint connect_peers (peers : list (Z * string)) : M (option error) :=
  match peers with
  | [] => mret None
  | (chainId, l2NodeAddr) :: rest =>
      r ← client_NewRPC l2NodeAddr;
      match r with
      | inl err => mret (Some (ErrConnectPeer chainId err))
      | inr l2Node =>
          modify_backend
            (fun b => set_l2PeerNodes (<[chainId := l2Node]> (l2PeerNodes b)) b);;
          connect_peers rest
      end
  end.

(** The callback handed to the poller: the only writer of the stored
    reference after construction. *)
Definition l2FinalizedHeadSignal (sig : eth.L1BlockRef) : M unit :=
  emit EvLock;;
  modify_backend (set_l2FinalizedBlockRef (Some sig));;
  emit EvUnlock.

Definition pollInterval : Z := time.Second * 12 * 32.
Definition timeout : Z := time.Second * 10.

(** [order] lists the entries of [cfg.PeerL2NodeAddrs] in the order in
    which the [range] statement yields them. The derived logger, the dial
    options and the cache metrics are passed through to the collaborators
    and decide nothing here: what a dial or a client construction answers
    is the environment's choice. *)
Definition NewSuperchainBackend (cfg : SuperchainConfig)
    (order : list (Z * string))
  : M (option SuperchainBackend * option error) :=
  put_backend {| l2FinalizedHeadSub := None;
                 l2FinalizedBlockRef := None;
                 l2PeerNodes := ∅ |};;
  r ← client_NewRPC (L2NodeAddr cfg);
  match r with
  | inl err => mret (None, Some (ErrConnectL2 err))
  | inr l2Node =>
      e ← connect_peers order;
      match e with
      | Some err => mret (None, Some err)
      | None =>
          r ← sources_NewL1Client l2Node l2ClientConfig;
          match r with
          | inl err => mret (None, Some (ErrConstructL2Client err))
          | inr l2Client =>
              r ← L1BlockRefByLabel l2Client eth.Finalized;
              match r with
              | inl err => mret (None, Some (ErrQueryFinalized err))
              | inr finalizedHeadRef =>
                  modify_backend
                    (set_l2FinalizedBlockRef (Some finalizedHeadRef));;
                  sub ← eth_PollBlockChanges l2Client eth.Finalized
                          pollInterval timeout;
                  modify_backend (set_l2FinalizedHeadSub (Some sub));;
                  mret (Some this_backend, None)
              end
          end
      end
  end.

(** Modelled from the spec: [eth.PollBlockChanges] is not in backend.go.
    Sections 4.2 and 6: at every interval the primitive fetches the
    reference; each fetched reference is handed to the callback; a failed
    fetch is surfaced through the log only and the callback is not run. *)
Definition poll_tick (c : sources.L1Client) (fn : eth.L1BlockRef -> M unit)
    (label : eth.BlockLabel) : M unit :=
  r ← L1BlockRefByLabel c label;
  match r with
  | inl err => log_Warn "failed to poll block" []
  | inr ref => fn ref
  end.

(** *** MessageSafety *)

Definition filterArgs (blockNumber : string) : gmap string string :=
  <["toBlock" := blockNumber]> (<["fromBlock" := blockNumber]> ∅).

Definition batchElems (id : MessageIdentifier) : list rpc.BatchElem :=
  let blockNumber := hexutil.EncodeBig (BlockNumber id) in
  [ {| rpc.Method := "eth_getBlockByNumber";
       rpc.Args := [rpc.ArgString blockNumber; rpc.ArgBool false] |};
    {| rpc.Method := "eth_getLogs";
       rpc.Args := [rpc.ArgObject (filterArgs blockNumber)] |} ].

Definition MessageSafety (id : MessageIdentifier) (payloadBytes : list byte)
  : M (MessageSafetyLabel * option error) :=
  log_Info "message safety check"
    [("chain_id", ChainId id); ("block_num", BlockNumber id);
     ("log_index", LogIndex id)];;
  b ← get_backend;
  match l2PeerNodes b !! big.Uint64 (ChainId id) with
  | None => mret (Invalid, Some (ErrPeerNotConfigured (ChainId id)))
  | Some l2Node =>
      r ← BatchCallContext l2Node (batchElems id);
      match rpc.call_error r with
      | Some err => mret (Invalid, Some (ErrRequestLogs err))
      | None =>
          if bool_decide (rpc.Error0 r ≠ None ∨ rpc.Error1 r ≠ None) then
            mret (Invalid, Some (ErrBatchFailures (rpc.Error0 r) (rpc.Error1 r)))
          else
            match rpc.header r with
            | None => mret (Invalid, Some (ErrBlockNotExist (BlockNumber id)))
            | Some header =>
                let logs := rpc.logs r in
                if bool_decide (LogIndex id >= Z.of_nat (length logs)) then
                  mret (Invalid, Some ErrInvalidLogIndex)
                else
                  log ← index logs (LogIndex id);
                  if bool_decide (LogIndex id ≠ types.Index log) then
                    mret (Invalid, Some ErrLogIndexMismatch)
                  else if negb (bytes_Equal payloadBytes (MessagePayloadBytes log)) then
                    mret (Invalid, Some ErrPayloadMismatch)
                  else if bool_decide (Origin id ≠ types.Address log) then
                    mret (Invalid, Some ErrOriginMismatch)
                  else if bool_decide (Timestamp id ≠ types.Time header) then
                    mret (Invalid, Some ErrTimestampMismatch)
                  else
                    emit EvRLock;;
                    b ← get_backend;
                    ref ← deref (l2FinalizedBlockRef b);
                    let finalizedL2Timestamp := eth.Time ref in
                    emit EvRUnlock;;
                    if bool_decide (Timestamp id <= finalizedL2Timestamp) then
                      mret (Finalized, None)
                    else
                      mret (Invalid, None)
            end
      end
  end.

End Program.

(** ** Observations on runs *)

(** The log line a verification call starts with. *)
Definition check_logged (id : MessageIdentifier) : event :=
  EvLog "info" "message safety check"
    [("chain_id", ChainId id); ("block_num", BlockNumber id);
     ("log_index", LogIndex id)].

(** The answer the resolved peer gives to the batch [MessageSafety] sends
    when it is called in world [w]: the call is made right after the log
    line of the verifier. *)
Definition fetched (env : Env) (w : World) (id : MessageIdentifier)
    (l2Node : client.RPC) : rpc.BatchResult :=
  env_BatchCallContext env (w_trace w ++ [check_logged id]) l2Node
    (batchElems id).

(** A batched fetch. *)
Definition is_fetch (e : event) : bool :=
  match e with
  | EvBatchCallContext _ _ _ => true
  | _ => false
  end.

(** A read of the tracker: the read lock is taken for nothing else. *)
Definition is_tracker_read (e : event) : bool :=
  match e with
  | EvRLock => true
  | _ => false
  end.

(** A dial that failed. *)
Definition is_failed_dial (e : event) : bool :=
  match e with
  | EvNewRPC _ (inl _) => true
  | _ => false
  end.

(** A fetch of the finalized reference that failed. *)
Definition is_failed_ref_fetch (e : event) : bool :=
  match e with
  | EvL1BlockRefByLabel _ eth.Finalized (inl _) => true
  | _ => false
  end.

(** The reference of the most recent successful fetch of the finalized
    reference recorded in a trace, [acc] when there is none. *)
Definition last_fetched_from (acc : option eth.L1BlockRef) (t : list event)
  : option eth.L1BlockRef :=
  fold_left
    (fun acc e =>
       match e with
       | EvL1BlockRefByLabel _ eth.Finalized (inr ref) => Some ref
       | _ => acc
       end)
    t acc.

Definition last_fetched (t : list event) : option eth.L1BlockRef :=
  last_fetched_from None t.

(** The dial of [addr] fails whenever it is attempted. *)
Definition dial_fails (env : Env) (addr : string) : Prop :=
  forall h, exists c, env_NewRPC env h addr = inl c.

(** The fetch of the finalized reference fails whenever it is attempted. *)
Definition ref_fetch_fails (env : Env) : Prop :=
  forall h c, exists e, env_L1BlockRefByLabel env h c eth.Finalized = inl e.

(** The timestamp a verification call reads from the tracker. *)
Definition finalized_timestamp (w : World) : option Z :=
  eth.Time <$> l2FinalizedBlockRef (w_backend w).

(** The stored reference is the reference of the last successful fetch
    recorded in the trace. *)
Definition tracks_last_fetch (w : World) : Prop :=
  exists ref,
    l2FinalizedBlockRef (w_backend w) = Some ref /\
    last_fetched (w_trace w) = Some ref.

(** The steps of a running backend, one at a time: a tick of the poller,
    which runs the callback the constructor registered, or a verification
    call. *)
Inductive step {enc : PayloadEncoding} (env : Env) : World -> World -> Prop :=
| step_poll (c : sources.L1Client) (w : World) :
    step env w (snd (poll_tick env c l2FinalizedHeadSignal eth.Finalized w))
| step_verify (id : MessageIdentifier) (payloadBytes : list byte) (w : World) :
    step env w (snd (MessageSafety env id payloadBytes w)).

(** ** The scenario of the specification

    Chain 10 is registered; block 100 of chain 10 has three logs, the one at
    index 2 emitted by an address starting with [0x0a] with data [0x1234];
    the block timestamp is 1000; the finalized timestamp is 1500. *)
Module Scenario.

#[export] Instance encoding : PayloadEncoding :=
  fun log => concat (types.Topics log) ++ types.Data log.

Definition addrA : common.Address := x0a :: replicate 19 x00.
Definition addrB : common.Address := x0b :: replicate 19 x00.

Definition log_at (i : Z) (a : common.Address) (data : list byte) : types.Log :=
  {| types.Address := a; types.Topics := []; types.Data := data;
     types.Index := i |}.

Definition block_logs : list types.Log :=
  [ log_at 0 addrB [xaa]; log_at 1 addrB [xbb];
    log_at 2 addrA [x12; x34] ].

Definition answer (hdr : option types.Header) (logs : list types.Log)
  : rpc.BatchResult :=
  {| rpc.call_error := None; rpc.Error0 := None; rpc.Error1 := None;
     rpc.header := hdr; rpc.logs := logs |}.

Definition ref_at (t : Z) : eth.L1BlockRef :=
  {| eth.Hash := []; eth.Number := 0; eth.ParentHash := []; eth.Time := t |}.

(** An environment in which every dial and every fetch succeeds and the
    peer answers the batch with [r]. *)
Definition env_with (r : rpc.BatchResult) (t : Z) : Env :=
  {| env_NewRPC := fun _ _ => inr 7%nat;
     env_NewL1Client := fun _ _ _ => inr 1%nat;
     env_L1BlockRefByLabel := fun _ _ _ => inr (ref_at t);
     env_PollBlockChanges := fun _ => 0%nat;
     env_BatchCallContext := fun _ _ _ => r |}.

Definition env : Env :=
  env_with (answer (Some {| types.Time := 1000 |}) block_logs) 1500.

(** The same, with a finalized reference fetch that always fails. *)
Definition env_no_ref : Env :=
  {| env_NewRPC := fun _ _ => inr 7%nat;
     env_NewL1Client := fun _ _ _ => inr 1%nat;
     env_L1BlockRefByLabel := fun _ _ _ => inl "timeout"%string;
     env_PollBlockChanges := fun _ => 0%nat;
     env_BatchCallContext := fun _ _ _ => answer None [] |}.

(** The same as [env], with a finalized reference that can be fetched
    only until the poller is started. *)
Definition env_flaky : Env :=
  {| env_NewRPC := fun _ _ => inr 7%nat;
     env_NewL1Client := fun _ _ _ => inr 1%nat;
     env_L1BlockRefByLabel := fun h _ _ =>
       if existsb
            (fun e => match e with EvPollBlockChanges _ _ _ _ => true | _ => false end)
            h
       then inl "timeout"%string
       else inr (ref_at 1500);
     env_PollBlockChanges := fun _ => 0%nat;
     env_BatchCallContext := fun _ _ _ =>
       answer (Some {| types.Time := 1000 |}) block_logs |}.

Definition world (t : Z) : World :=
  {| w_backend :=
       {| l2FinalizedHeadSub := Some 0%nat;
          l2FinalizedBlockRef := Some (ref_at t);
          l2PeerNodes := {[ 10 := 7%nat ]} |};
     w_trace := [] |}.

Definition id : MessageIdentifier :=
  {| Origin := addrA; BlockNumber := 100; LogIndex := 2;
     Timestamp := 1000; ChainId := 10 |}.

Definition payload : list byte := [x12; x34].

Definition with_LogIndex (i : Z) (m : MessageIdentifier) : MessageIdentifier :=
  {| Origin := Origin m; BlockNumber := BlockNumber m; LogIndex := i;
     Timestamp := Timestamp m; ChainId := ChainId m |}.

Definition with_ChainId (c : Z) (m : MessageIdentifier) : MessageIdentifier :=
  {| Origin := Origin m; BlockNumber := BlockNumber m; LogIndex := LogIndex m;
     Timestamp := Timestamp m; ChainId := c |}.

Definition with_Origin (a : common.Address) (m : MessageIdentifier)
  : MessageIdentifier :=
  {| Origin := a; BlockNumber := BlockNumber m; LogIndex := LogIndex m;
     Timestamp := Timestamp m; ChainId := ChainId m |}.

(** A peer that answers that block 100 does not exist. *)
Definition env_missing_block : Env := env_with (answer None []) 1500.

(** Chain 10 with a chain id beyond 64 bits: [2^64 + 10]. *)
Definition id_wide : MessageIdentifier := with_ChainId (2 ^ 64 + 10) id.

Definition cfg : SuperchainConfig :=
  {| L2NodeAddr := "http://l2:8545"; PeerL2NodeAddrs := {[ 10 := "http://peer10:8545"%string ]} |}.

Definition empty_world : World :=
  {| w_backend :=
       {| l2FinalizedHeadSub := None; l2FinalizedBlockRef := None;
          l2PeerNodes := ∅ |};
     w_trace := [] |}.

(** The order in which the peers of [cfg] are visited. *)
Definition order : list (Z * string) := map_to_list (PeerL2NodeAddrs cfg).

(** The world the constructor leaves behind under [env_flaky], and the
    world after one more tick of the poller, whose fetch fails. *)
Definition started : World :=
  snd (NewSuperchainBackend env_flaky cfg order empty_world).

Definition after_failed_tick : World :=
  snd (poll_tick env_flaky 1%nat l2FinalizedHeadSignal eth.Finalized started).

End Scenario.

(** ** Further cases of the scenario *)
Module Cases.

(** The peer of chain 10 refuses the connection; everything else is as in
    the scenario. *)
Definition env_peer_down : Env :=
  {| env_NewRPC := fun _ addr =>
       if String.eqb addr "http://peer10:8545"
       then inl "connection refused"%string
       else inr 7%nat;
     env_NewL1Client := fun _ _ _ => inr 1%nat;
     env_L1BlockRefByLabel := fun _ _ _ => inr (Scenario.ref_at 1500);
     env_PollBlockChanges := fun _ => 0%nat;
     env_BatchCallContext := fun _ _ _ =>
       Scenario.answer (Some {| types.Time := 1000 |}) Scenario.block_logs |}.

(** The message of the scenario, claimed for another origin. *)
Definition id_other_origin : MessageIdentifier :=
  Scenario.with_Origin Scenario.addrB Scenario.id.

End Cases.

(** ** Further observations on runs *)

(** A dial. *)
Definition is_dial (e : event) : bool :=
  match e with
  | EvNewRPC _ _ => true
  | _ => false
  end.

(** The start of the poller. *)
Definition is_poll_start (e : event) : bool :=
  match e with
  | EvPollBlockChanges _ _ _ _ => true
  | _ => false
  end.



(** A collaborator call that failed during construction. *)
Definition is_failed_call (e : event) : bool :=
  match e with
  | EvNewRPC _ (inl _) | EvNewL1Client _ _ (inl _)
  | EvL1BlockRefByLabel _ _ (inl _) => true
  | _ => false
  end.

(** How often events of a kind occur in a trace. *)
Definition occurrences (p : event -> bool) (t : list event) : nat :=
  length (List.filter p t).

(** The line of backend.go whose [fmt.Errorf] builds the error. *)
Definition error_line (e : error) : Z :=
  match e with
  | ErrConnectL2 _ => 42
  | ErrConnectPeer _ _ => 48
  | ErrConstructL2Client _ => 71
  | ErrQueryFinalized _ => 77
  | ErrPeerNotConfigured _ => 102
  | ErrRequestLogs _ => 117
  | ErrBatchFailures _ _ => 120
  | ErrBlockNotExist _ => 123
  | ErrInvalidLogIndex => 131
  | ErrLogIndexMismatch => 136
  | ErrPayloadMismatch => 139
  | ErrOriginMismatch => 142
  | ErrTimestampMismatch => 145
  end.

(** Two worlds a verification call cannot tell apart before it reads the
    tracker: the same peers and the same events so far. *)
Definition same_up_to_tracker (w w' : World) : Prop :=
  l2PeerNodes (w_backend w) = l2PeerNodes (w_backend w') /\
  w_trace w = w_trace w'.

(** Every check of the verifier passes for [id] and [payloadBytes] in
    world [w], and the tracker stores [ref]. *)
Definition verified (env : Env) {enc : PayloadEncoding} (w : World)
    (id : MessageIdentifier) (payloadBytes : list byte)
    (ref : eth.L1BlockRef) : Prop :=
  exists l2Node hdr log,
    l2PeerNodes (w_backend w) !! big.Uint64 (ChainId id) = Some l2Node /\
    rpc.call_error (fetched env w id l2Node) = None /\
    rpc.Error0 (fetched env w id l2Node) = None /\
    rpc.Error1 (fetched env w id l2Node) = None /\
    rpc.header (fetched env w id l2Node) = Some hdr /\
    LogIndex id < Z.of_nat (length (rpc.logs (fetched env w id l2Node))) /\
    rpc.logs (fetched env w id l2Node) !! Z.to_nat (LogIndex id) = Some log /\
    types.Index log = LogIndex id /\
    MessagePayloadBytes log = payloadBytes /\
    types.Address log = Origin id /\
    types.Time hdr = Timestamp id /\
    l2FinalizedBlockRef (w_backend w) = Some ref.

(** ** Running the verifier *)

(** Unfolds one call of the verifier down to the answers of the
    collaborators. *)
Ltac run_verifier :=
  unfold MessageSafety, log_Info, BatchCallContext, modify_backend, emit,
    history, get_backend, put_backend, index, deref, panic,
    mbind, M_bind, bind, mret, M_ret, ret;
  unfold fetched, check_logged in *;
  cbn [fst snd w_trace w_backend].

(** Settles the comparisons of the verifier one after the other, closing
    the branches the hypotheses exclude. *)
Ltac decide_checks :=
  unfold bytes_Equal, uint64 in *;
  repeat (case_bool_decide;
          try (exfalso; first [lia | congruence | tauto | intuition congruence]);
          cbn).

(** Splits a run of the verifier into its return points. *)
Ltac split_run :=
  unfold bytes_Equal;
  repeat (cbn;
          first
            [ case_bool_decide
            | match goal with
              | |- context [match ?x with Some _ => _ | None => _ end] =>
                  destruct x eqn:?
              end ]);
  cbn.

(** Evaluates a closed side condition. *)
Ltac evaluate :=
  first [ reflexivity
        | vm_compute; reflexivity
        | cbn; unfold uint64; cbn; lia
        | cbn; discriminate ].

(** Unfolds the calls of the constructor and of the poller. *)
Ltac run_backend :=
  unfold NewSuperchainBackend, poll_tick, l2FinalizedHeadSignal,
    client_NewRPC, sources_NewL1Client, L1BlockRefByLabel,
    eth_PollBlockChanges, log_Warn, modify_backend, emit, history,
    get_backend, put_backend, mbind, M_bind, bind, mret, M_ret, ret;
  cbn [fst snd w_trace w_backend].

Lemma Error_not_empty (e : error) : Error e <> EmptyString.
Proof. destruct e; discriminate. Qed.

Section Verifier.
Context (env : Env) {enc : PayloadEncoding}.
Variables (w : World) (id : MessageIdentifier) (payloadBytes : list byte).

(** The run of this call. *)
Let run : res (MessageSafetyLabel * option error) * World :=
  MessageSafety env id payloadBytes w.

(** A call is rejected as unconfigured exactly when the low 64 bits of
    the chain id are not a key of the peer map. *)
Lemma rejected_unconfigured_iff (c : Z) :
  fst run = Val (Invalid, Some (ErrPeerNotConfigured c)) <->
  l2PeerNodes (w_backend w) !! big.Uint64 (ChainId id) = None /\ c = ChainId id.
Proof.
  subst run. run_verifier.
  destruct (l2PeerNodes (w_backend w) !! big.Uint64 (ChainId id))
    as [l2Node|] eqn:Hresolve; cbn.
  - split; [|intros [? _]; discriminate]. intros Hrun. exfalso. revert Hrun.
    destruct (rpc.call_error _); cbn; [done|].
    case_bool_decide; cbn; [done|].
    destruct (rpc.header _); cbn; [|done].
    case_bool_decide; cbn; [done|].
    destruct (rpc.logs _ !! _) as [log|]; cbn; [|done].
    decide_checks; try done.
    destruct (l2FinalizedBlockRef _); cbn; [|done].
    decide_checks; done.
  - split; [intros [= <-]; done | intros [_ ->]; done].
Qed.

(** C5, as amended: when the chain id, reduced to its low 64 bits, is not
    a key of the peer map, the call returns [Invalid] with the
    peer-not-configured error whatever the environment does, and it logs
    one line and nothing else: no batched fetch, no tracker read, the
    backend untouched. *)
Theorem unconfigured_chain_rejected :
  0 <= ChainId id ->
  l2PeerNodes (w_backend w) !! (ChainId id mod 2 ^ 64) = None ->
  fst run = Val (Invalid, Some (ErrPeerNotConfigured (ChainId id))) /\
  w_backend (snd run) = w_backend w /\
  exists t, w_trace (snd run) = w_trace w ++ t /\
            existsb is_fetch t = false /\
            existsb is_tracker_read t = false.
Proof.
  intros Hpos Hnone. subst run. run_verifier.
  unfold big.Uint64. rewrite Z.abs_eq by done. rewrite Hnone. cbn.
  repeat split. eexists. split; [reflexivity|]. done.
Qed.

(** C7: a returned error always comes with the label [Invalid], and a
    label other than [Invalid] always comes with no error; with a
    [LogIndex] in the unsigned range and a stored reference, the call does
    return such a pair. *)
Theorem error_pairs_with_Invalid :
  (forall label err,
      fst run = Val (label, err) ->
      (err <> None -> label = Invalid) /\ (label <> Invalid -> err = None)) /\
  (uint64 (LogIndex id) ->
   is_Some (l2FinalizedBlockRef (w_backend w)) ->
   exists label err, fst run = Val (label, err)).
Proof.
  subst run. run_verifier.
  assert (Hpair : forall (l l' : MessageSafetyLabel) (e e' : option error),
             Val (A := MessageSafetyLabel * option error) (l, e) = Val (l', e') ->
             (e = None \/ l = Invalid) ->
             (e' <> None -> l' = Invalid) /\ (l' <> Invalid -> e' = None)).
  { intros l l' e e' [= <- <-] [->| ->]; split; congruence. }
  split.
  - intros label err. split_run; intros Hrun;
      first [discriminate Hrun | eapply Hpair; eauto].
  - intros Hrange [ref Href]. split_run; eauto; try congruence;
      match goal with
      | Hlog : _ !! _ = None |- _ => apply lookup_ge_None in Hlog
      end;
      unfold uint64 in Hrange; lia.
Qed.

(** C4: a [LogIndex] at or beyond the number of logs returned is rejected
    with the bounds error, and the log list is never indexed out of
    range: no call panics on the index. *)
Theorem log_index_bounds_checked :
  uint64 (LogIndex id) ->
  (forall l2Node hdr,
      l2PeerNodes (w_backend w) !! big.Uint64 (ChainId id) = Some l2Node ->
      rpc.call_error (fetched env w id l2Node) = None ->
      rpc.Error0 (fetched env w id l2Node) = None ->
      rpc.Error1 (fetched env w id l2Node) = None ->
      rpc.header (fetched env w id l2Node) = Some hdr ->
      LogIndex id >= Z.of_nat (length (rpc.logs (fetched env w id l2Node))) ->
      fst run = Val (Invalid, Some ErrInvalidLogIndex)) /\
  fst run <> Panic index_out_of_range.
Proof.
  intros Hrange. split.
  - intros l2Node hdr Hresolve Hcall Helem0 Helem1 Hheader Hlen.
    subst run. run_verifier.
    rewrite Hresolve; cbn. rewrite Hcall, Helem0, Helem1, Hheader; cbn.
    decide_checks. done.
  - subst run. run_verifier. split_run; try done;
      match goal with
      | Hlog : _ !! _ = None |- _ => apply lookup_ge_None in Hlog
      end;
      unfold uint64 in Hrange; lia.
Qed.
Section Resolved.
(** The chain id resolves to the peer [l2Node]; [r] is what the batched
    round trip to it leaves behind. *)
Variable l2Node : client.RPC.
Hypothesis Hresolve :
  l2PeerNodes (w_backend w) !! big.Uint64 (ChainId id) = Some l2Node.

Let r : rpc.BatchResult := fetched env w id l2Node.

(** C6: when the round trip fails as a whole, or an element of the batch
    carries an error, or the header is null, the call returns [Invalid]
    with the error of the first of these failures; the outcome does not
    depend on the payload, and the trace ends with the fetch: no tracker
    read follows. *)
Theorem fetch_failure_aborts :
  rpc.call_error r <> None \/ rpc.Error0 r <> None \/
    rpc.Error1 r <> None \/ rpc.header r = None ->
  exists err,
    fst run = Val (Invalid, Some err) /\
    (forall c, rpc.call_error r = Some c -> err = ErrRequestLogs c) /\
    (rpc.call_error r = None ->
     rpc.Error0 r <> None \/ rpc.Error1 r <> None ->
     err = ErrBatchFailures (rpc.Error0 r) (rpc.Error1 r)) /\
    (rpc.call_error r = None -> rpc.Error0 r = None ->
     rpc.Error1 r = None -> err = ErrBlockNotExist (BlockNumber id)) /\
    Error err <> EmptyString /\
    (forall payloadBytes',
        fst (MessageSafety env id payloadBytes' w) = fst run) /\
    w_backend (snd run) = w_backend w /\
    w_trace (snd run) =
      w_trace w ++ [check_logged id; EvBatchCallContext l2Node (batchElems id) r] /\
    existsb is_tracker_read
      [check_logged id; EvBatchCallContext l2Node (batchElems id) r] = false.
Proof.
  intros Hfail. subst run r. run_verifier.
  rewrite Hresolve; cbn. rewrite <- app_assoc; cbn.
  destruct (rpc.call_error _) as [c|] eqn:Hcall; cbn.
  { eexists. split; [reflexivity|].
    repeat split; first [done | congruence | apply Error_not_empty]. }
  case_bool_decide as Helem; cbn.
  { eexists. split; [reflexivity|].
    repeat split; first [done | intuition congruence | apply Error_not_empty]. }
  destruct (rpc.header _) as [hdr|] eqn:Hheader; cbn.
  { exfalso. intuition congruence. }
  eexists. split; [reflexivity|].
  repeat split; first [done | congruence | apply Error_not_empty].
Qed.

Section Fetched.
(** The fetch succeeds, the block exists and there is a log at
    position [LogIndex]. *)
Variables (hdr : types.Header) (log : types.Log).
Hypothesis Hcall : rpc.call_error r = None.
Hypothesis Helem0 : rpc.Error0 r = None.
Hypothesis Helem1 : rpc.Error1 r = None.
Hypothesis Hheader : rpc.header r = Some hdr.
Hypothesis Hrange : uint64 (LogIndex id).
Hypothesis Hlog : rpc.logs r !! Z.to_nat (LogIndex id) = Some log.

(** C3: a log whose reported index, payload encoding or address, or a
    header whose timestamp, differs from the identifier is rejected
    with [Invalid] and the error of the first check that fails, in the
    order index, payload, origin, timestamp; the four errors and their
    messages are pairwise different. *)
Theorem integrity_mismatch_rejected :
  types.Index log <> LogIndex id \/
    MessagePayloadBytes log <> payloadBytes \/
    types.Address log <> Origin id \/
    types.Time hdr <> Timestamp id ->
  exists err,
    fst run = Val (Invalid, Some err) /\
    (err = ErrLogIndexMismatch <-> types.Index log <> LogIndex id) /\
    (err = ErrPayloadMismatch <->
       types.Index log = LogIndex id /\
       MessagePayloadBytes log <> payloadBytes) /\
    (err = ErrOriginMismatch <->
       types.Index log = LogIndex id /\
       MessagePayloadBytes log = payloadBytes /\
       types.Address log <> Origin id) /\
    (err = ErrTimestampMismatch <->
       types.Index log = LogIndex id /\
       MessagePayloadBytes log = payloadBytes /\
       types.Address log = Origin id /\
       types.Time hdr <> Timestamp id) /\
    NoDup [ErrLogIndexMismatch; ErrPayloadMismatch; ErrOriginMismatch;
           ErrTimestampMismatch] /\
    NoDup (Error <$> [ErrLogIndexMismatch; ErrPayloadMismatch;
                      ErrOriginMismatch; ErrTimestampMismatch]).
Proof.
  intros Hmismatch.
  assert (Hdistinct :
            NoDup [ErrLogIndexMismatch; ErrPayloadMismatch;
                   ErrOriginMismatch; ErrTimestampMismatch] /\
            NoDup (Error <$> [ErrLogIndexMismatch; ErrPayloadMismatch;
                              ErrOriginMismatch; ErrTimestampMismatch])).
  { split; cbn;
      repeat (apply NoDup_cons; split;
              [rewrite ?elem_of_cons, elem_of_nil; intuition discriminate|]);
      apply NoDup_nil_2. }
  subst run r. run_verifier.
  apply lookup_lt_Some in Hlog as Hlt.
  rewrite Hresolve; cbn. rewrite Hcall, Helem0, Helem1, Hheader; cbn.
  rewrite bool_decide_eq_false_2 by (unfold uint64 in Hrange; lia).
  rewrite Hlog; cbn. unfold bytes_Equal.
  repeat (case_bool_decide; cbn);
    try (exfalso; intuition congruence);
    (eexists; split; [reflexivity|]);
    (repeat split; try apply Hdistinct; try discriminate;
     intuition congruence).
Qed.

Section Consistent.
(** The five integrity checks hold and the tracker stores [ref]. *)
Variable ref : eth.L1BlockRef.
Hypothesis Hindex : types.Index log = LogIndex id.
Hypothesis Hpayload : MessagePayloadBytes log = payloadBytes.
Hypothesis Horigin : types.Address log = Origin id.
Hypothesis Htime : types.Time hdr = Timestamp id.
Hypothesis Href : l2FinalizedBlockRef (w_backend w) = Some ref.

Lemma consistent_reaches_tracker :
  fst run =
    Val (if bool_decide (Timestamp id <= eth.Time ref)
         then (Finalized, None) else (Invalid, None)).
Proof.
  subst run r. run_verifier.
  apply lookup_lt_Some in Hlog as Hlt.
  rewrite Hresolve; cbn. rewrite Hcall, Helem0, Helem1, Hheader; cbn.
  rewrite bool_decide_eq_false_2 by (unfold uint64 in Hrange; lia).
  rewrite Hlog; cbn.
  decide_checks; rewrite Href; cbn; decide_checks; done.
Qed.

(** C1: a fully consistent identifier, payload, header and log whose
    timestamp is at most the finalized timestamp of the tracker is
    labelled [Finalized], with no error. *)
Theorem finalized_when_covered :
  Timestamp id <= eth.Time ref ->
  fst run = Val (Finalized, None).
Proof.
  intros Hfin. rewrite consistent_reaches_tracker.
  by rewrite bool_decide_eq_true_2.
Qed.

(** C2: the same consistent call with a timestamp beyond the
    finalized timestamp of the tracker is labelled [Invalid], with no
    error. *)
Theorem undetermined_when_not_covered :
  Timestamp id > eth.Time ref ->
  fst run = Val (Invalid, None).
Proof.
  intros Hfin. rewrite consistent_reaches_tracker.
  rewrite bool_decide_eq_false_2; [done | lia].
Qed.
End Consistent.
End Fetched.
End Resolved.
End Verifier.

(** ** Chain resolution *)

Section ChainResolution.
Context (env : Env) {enc : PayloadEncoding}.

(** The batches a call sends: one, to the peer stored under the low 64
    bits of the chain id, and none when no peer is stored there. *)
Lemma MessageSafety_fetches (id : MessageIdentifier) (payloadBytes : list byte)
    (w : World) :
  exists t,
    w_trace (snd (MessageSafety env id payloadBytes w)) = w_trace w ++ t /\
    List.filter is_fetch t =
      match l2PeerNodes (w_backend w) !! big.Uint64 (ChainId id) with
      | Some l2Node =>
          [EvBatchCallContext l2Node (batchElems id) (fetched env w id l2Node)]
      | None => []
      end.
Proof.
  run_verifier.
  split_run; rewrite <- ?app_assoc; cbn;
    (eexists; split; [reflexivity|]); done.
Qed.

(** C10: chain resolution reads the low 64 bits of the chain id. Two
    identifiers with unsigned chain ids congruent modulo [2^64] resolve to
    the same key of the peer map, and one is rejected as unconfigured
    exactly when the other is. When a peer is stored under the reduced
    chain id, the call is not rejected as unconfigured and sends its one
    batch to that peer; when none is stored there, the call is rejected as
    unconfigured and sends no batch. *)
Theorem chain_resolution_low_64_bits (id1 id2 : MessageIdentifier) :
  0 <= ChainId id1 ->
  0 <= ChainId id2 ->
  ChainId id1 mod 2 ^ 64 = ChainId id2 mod 2 ^ 64 ->
  big.Uint64 (ChainId id1) = big.Uint64 (ChainId id2) /\
  forall (w : World) (p1 p2 : list byte),
    l2PeerNodes (w_backend w) !! big.Uint64 (ChainId id1) =
      l2PeerNodes (w_backend w) !! big.Uint64 (ChainId id2) /\
    (fst (MessageSafety env id1 p1 w) =
       Val (Invalid, Some (ErrPeerNotConfigured (ChainId id1))) <->
     fst (MessageSafety env id2 p2 w) =
       Val (Invalid, Some (ErrPeerNotConfigured (ChainId id2)))) /\
    (forall l2Node,
        l2PeerNodes (w_backend w) !! (ChainId id2 mod 2 ^ 64) = Some l2Node ->
        (forall c,
            fst (MessageSafety env id1 p1 w) <>
              Val (Invalid, Some (ErrPeerNotConfigured c))) /\
        exists t,
          w_trace (snd (MessageSafety env id1 p1 w)) = w_trace w ++ t /\
          List.filter is_fetch t =
            [EvBatchCallContext l2Node (batchElems id1)
               (fetched env w id1 l2Node)]) /\
    (l2PeerNodes (w_backend w) !! (ChainId id2 mod 2 ^ 64) = None ->
     fst (MessageSafety env id1 p1 w) =
       Val (Invalid, Some (ErrPeerNotConfigured (ChainId id1))) /\
     exists t,
       w_trace (snd (MessageSafety env id1 p1 w)) = w_trace w ++ t /\
       List.filter is_fetch t = []).
Proof.
  intros Hpos1 Hpos2 Hmod.
  assert (Hkey : big.Uint64 (ChainId id1) = big.Uint64 (ChainId id2)).
  { unfold big.Uint64. by rewrite !Z.abs_eq. }
  assert (Hreduced : big.Uint64 (ChainId id1) = ChainId id2 mod 2 ^ 64).
  { unfold big.Uint64. by rewrite Z.abs_eq. }
  split; [done|]. intros w p1 p2. split; [by rewrite Hkey|]. split; [|split].
  - rewrite !rejected_unconfigured_iff, Hkey. tauto.
  - intros l2Node Hnode. split.
    + intros c. rewrite rejected_unconfigured_iff, Hreduced, Hnode.
      intros [? _]. discriminate.
    + destruct (MessageSafety_fetches id1 p1 w) as (t & Ht & Hfetch).
      exists t. split; [done|]. by rewrite Hfetch, Hreduced, Hnode.
  - intros Hnone. split.
    + apply rejected_unconfigured_iff. by rewrite Hreduced.
    + destruct (MessageSafety_fetches id1 p1 w) as (t & Ht & Hfetch).
      exists t. split; [done|]. by rewrite Hfetch, Hreduced, Hnone.
Qed.
End ChainResolution.

(** ** The tracker *)

Lemma last_fetched_from_app (acc : option eth.L1BlockRef) (t1 t2 : list event) :
  last_fetched_from acc (t1 ++ t2) =
    last_fetched_from (last_fetched_from acc t1) t2.
Proof. apply fold_left_app. Qed.

Section Tracker.
Context (env : Env) {enc : PayloadEncoding}.

(** A verification call leaves the backend as it is and records no fetch
    of the finalized reference. *)
Lemma MessageSafety_frame (id : MessageIdentifier) (payloadBytes : list byte)
    (w : World) :
  w_backend (snd (MessageSafety env id payloadBytes w)) = w_backend w /\
  exists t,
    w_trace (snd (MessageSafety env id payloadBytes w)) = w_trace w ++ t /\
    forall acc, last_fetched_from acc t = acc.
Proof.
  run_verifier.
  split_run; (split; [done|]); rewrite <- ?app_assoc;
    (eexists; split; [reflexivity|]); done.
Qed.

(** The loop over the peers only dials: it returns an error exactly when a
    dial failed, and it does not touch the stored reference. *)
Lemma connect_peers_spec (peers : list (Z * string)) (w : World) :
  exists e t,
    fst (connect_peers env peers w) = Val e /\
    w_trace (snd (connect_peers env peers w)) = w_trace w ++ t /\
    l2FinalizedBlockRef (w_backend (snd (connect_peers env peers w))) =
      l2FinalizedBlockRef (w_backend w) /\
    (e = None <-> existsb is_failed_dial t = false) /\
    existsb is_failed_ref_fetch t = false /\
    (forall acc, last_fetched_from acc t = acc) /\
    ((exists chainId addr, (chainId, addr) ∈ peers /\ dial_fails env addr) ->
     e <> None).
Proof.
  revert w. induction peers as [|[chainId addr] rest IH]; intros w.
  - exists None, []. cbn. rewrite app_nil_r.
    repeat split; try done. intros (? & ? & Hin & _). by apply elem_of_nil in Hin.
  - cbn [connect_peers]. run_backend.
    destruct (env_NewRPC env (w_trace w) addr) as [c|l2Node] eqn:Hdial; cbn.
    + eexists _, [_]. repeat split; done.
    + match goal with
      | |- context [connect_peers env rest ?w1] =>
          destruct (IH w1) as (e & t & He & Ht & Href & Hnone & Hfetch & Hlast & Hfail)
      end.
      cbn in Ht, Href.
      exists e, (EvNewRPC addr (inr l2Node) :: t).
      split; [done|]. split; [by rewrite Ht, <- app_assoc|].
      split; [done|]. split; [done|]. split; [done|]. split; [done|].
      intros (chainId' & addr' & Hin & Hfails).
      apply elem_of_cons in Hin as [[= -> ->]|Hin].
      * destruct (Hfails (w_trace w)) as [c Hc]. congruence.
      * apply Hfail. eauto.
Qed.
(** The constructor either returns an error and no backend, or it returns
    the backend after a run without a failed dial or fetch, with the
    fetched reference stored. *)
Lemma NewSuperchainBackend_spec (cfg : SuperchainConfig)
    (order : list (Z * string)) (w : World) :
  exists t,
    w_trace (snd (NewSuperchainBackend env cfg order w)) = w_trace w ++ t /\
    ((exists err,
         fst (NewSuperchainBackend env cfg order w) = Val (None, Some err)) \/
     (fst (NewSuperchainBackend env cfg order w) = Val (Some this_backend, None) /\
      existsb is_failed_dial t = false /\
      existsb is_failed_ref_fetch t = false /\
      exists ref,
        l2FinalizedBlockRef (w_backend (snd (NewSuperchainBackend env cfg order w)))
          = Some ref /\
        forall acc, last_fetched_from acc t = Some ref)) /\
    ((exists chainId addr, (chainId, addr) ∈ order /\ dial_fails env addr) ->
     exists err,
       fst (NewSuperchainBackend env cfg order w) = Val (None, Some err)) /\
    (ref_fetch_fails env ->
     exists err,
       fst (NewSuperchainBackend env cfg order w) = Val (None, Some err)).
Proof.
  run_backend.
  destruct (env_NewRPC env (w_trace w) (L2NodeAddr cfg)) as [c|l2Node]; cbn.
  { eexists [_]. split; [done|]. repeat split; eauto. }
  match goal with
  | |- context [connect_peers env order ?w1] =>
      destruct (connect_peers_spec order w1)
        as (e & t & He & Ht & Href & Hnone & Hfetch & Hlast & Hfail);
      destruct (connect_peers env order w1) as [[e'|msg] w2]
  end; cbn in He, Ht, Href; [|discriminate He].
  injection He as ->.
  destruct e as [err|]; cbn.
  { eexists. rewrite Ht, <- app_assoc. split; [reflexivity|].
    repeat split; eauto. }
  destruct (env_NewL1Client env (w_trace w2) l2Node l2ClientConfig)
    as [c|l2Client]; cbn.
  { eexists. rewrite Ht, <- !app_assoc. split; [reflexivity|].
    repeat split; eauto. }
  match goal with
  | |- context [env_L1BlockRefByLabel env ?h l2Client eth.Finalized] =>
      destruct (env_L1BlockRefByLabel env h l2Client eth.Finalized)
        as [c|finalizedHeadRef] eqn:Hfetched
  end; cbn.
  { eexists. rewrite Ht, <- !app_assoc. split; [reflexivity|].
    repeat split; eauto. }
  eexists. rewrite Ht, <- !app_assoc. split; [reflexivity|].
  split; [right|split].
  - split; [done|]. cbn. rewrite !existsb_app. cbn.
    rewrite Hfetch. rewrite (proj1 Hnone eq_refl).
    repeat split; try done. eexists. split; [done|].
    intros acc. unfold last_fetched_from. cbn. by rewrite fold_left_app.
  - intros Hdial. by destruct (Hfail Hdial).
  - intros Hfails. destruct (Hfails (w_trace w2 ++ [EvNewL1Client l2Node l2ClientConfig (inr l2Client)]) l2Client) as [e He].
    congruence.
Qed.

Lemma step_tracks_last_fetch (w w' : World) :
  step env w w' -> tracks_last_fetch w -> tracks_last_fetch w'.
Proof.
  intros Hstep (ref & Href & Hlast). destruct Hstep as [c w|id payloadBytes w].
  - run_backend.
    destruct (env_L1BlockRefByLabel env (w_trace w) c eth.Finalized)
      as [e|ref'] eqn:Hfetched; cbn.
    + exists ref. split; [done|]. cbn [w_trace].
      unfold last_fetched, last_fetched_from in *.
      by rewrite <- app_assoc, fold_left_app, Hlast.
    + exists ref'. split; [done|]. cbn [w_trace].
      unfold last_fetched, last_fetched_from in *.
      by rewrite <- !app_assoc, fold_left_app, Hlast.
  - destruct (MessageSafety_frame id payloadBytes w) as (Hb & t & Ht & Hframe).
    exists ref. rewrite Hb, Ht. split; [done|].
    unfold last_fetched in *. by rewrite last_fetched_from_app, Hlast, Hframe.
Qed.
Lemma steps_track_last_fetch (w w' : World) :
  rtc (step env) w w' -> tracks_last_fetch w -> tracks_last_fetch w'.
Proof. induction 1; eauto using step_tracks_last_fetch. Qed.

Lemma reachable_tracks_last_fetch (cfg : SuperchainConfig)
    (order : list (Z * string)) (w0 w : World) :
  fst (NewSuperchainBackend env cfg order w0) = Val (Some this_backend, None) ->
  rtc (step env) (snd (NewSuperchainBackend env cfg order w0)) w ->
  tracks_last_fetch w.
Proof.
  intros Hready Hsteps. eapply steps_track_last_fetch; [done|].
  destruct (NewSuperchainBackend_spec cfg order w0)
    as (t & Ht & [[err Herr]|(_ & _ & _ & ref & Href & Hlast)] & _).
  { rewrite Herr in Hready. discriminate. }
  exists ref. split; [done|].
  unfold last_fetched. by rewrite Ht, last_fetched_from_app, Hlast.
Qed.

(** C8: the constructor returns an error, and no backend, whenever a
    peer of the configuration cannot be dialed or the initial fetch of the
    finalized reference fails, and more generally whenever a dial or that
    fetch failed during construction; when it returns the backend, the
    stored reference is the reference the initial fetch returned. *)
Theorem construction_failures_are_fatal (cfg : SuperchainConfig)
    (order : list (Z * string)) (w : World) :
  order ≡ₚ map_to_list (PeerL2NodeAddrs cfg) ->
  (forall chainId addr,
      PeerL2NodeAddrs cfg !! chainId = Some addr ->
      dial_fails env addr ->
      exists err,
        fst (NewSuperchainBackend env cfg order w) = Val (None, Some err)) /\
  (ref_fetch_fails env ->
   exists err,
     fst (NewSuperchainBackend env cfg order w) = Val (None, Some err)) /\
  exists t,
    w_trace (snd (NewSuperchainBackend env cfg order w)) = w_trace w ++ t /\
    (existsb is_failed_dial t = true \/ existsb is_failed_ref_fetch t = true ->
     exists err,
       fst (NewSuperchainBackend env cfg order w) = Val (None, Some err)) /\
    (fst (NewSuperchainBackend env cfg order w) = Val (Some this_backend, None) ->
     exists ref,
       l2FinalizedBlockRef (w_backend (snd (NewSuperchainBackend env cfg order w)))
         = Some ref /\
       last_fetched t = Some ref /\
       finalized_timestamp (snd (NewSuperchainBackend env cfg order w))
         = Some (eth.Time ref)).
Proof.
  intros Hperm.
  destruct (NewSuperchainBackend_spec cfg order w)
    as (t & Ht & Hcases & Hdial & Hfetch).
  split; [|split; [done|]].
  - intros chainId addr Hin Hfails. apply Hdial. exists chainId, addr.
    split; [|done]. rewrite Hperm. by apply elem_of_map_to_list.
  - exists t. split; [done|]. split.
    + intros Hfailed.
      destruct Hcases as [Herr|(_ & Hnodial & Hnofetch & _)]; [done|].
      rewrite Hnodial, Hnofetch in Hfailed. by destruct Hfailed.
    + intros Hready.
      destruct Hcases as [[err Herr]|(_ & _ & _ & ref & Href & Hlast)].
      { rewrite Herr in Hready. discriminate. }
      exists ref. unfold finalized_timestamp. rewrite Href.
      split; [done|]. split; [apply Hlast|done].
Qed.

(** C9: after construction and any sequence of poller ticks and
    verification calls, the stored reference is the reference of the most
    recent successful fetch, the initial one included; a tick whose fetch
    fails leaves it as it is, a tick whose fetch succeeds replaces it by
    the fetched reference as a whole, and a verification call does not
    write it. *)
Theorem stale_reference_kept (cfg : SuperchainConfig)
    (order : list (Z * string)) (w0 w : World) :
  fst (NewSuperchainBackend env cfg order w0) = Val (Some this_backend, None) ->
  rtc (step env) (snd (NewSuperchainBackend env cfg order w0)) w ->
  (exists ref,
      l2FinalizedBlockRef (w_backend w) = Some ref /\
      last_fetched (w_trace w) = Some ref /\
      finalized_timestamp w = Some (eth.Time ref)) /\
  (forall c,
      match env_L1BlockRefByLabel env (w_trace w) c eth.Finalized with
      | inl _ =>
          l2FinalizedBlockRef
            (w_backend (snd (poll_tick env c l2FinalizedHeadSignal eth.Finalized w)))
            = l2FinalizedBlockRef (w_backend w)
      | inr ref' =>
          l2FinalizedBlockRef
            (w_backend (snd (poll_tick env c l2FinalizedHeadSignal eth.Finalized w)))
            = Some ref'
      end) /\
  (forall id payloadBytes,
      l2FinalizedBlockRef (w_backend (snd (MessageSafety env id payloadBytes w)))
        = l2FinalizedBlockRef (w_backend w)).
Proof.
  intros Hready Hsteps.
  destruct (reachable_tracks_last_fetch cfg order w0 w Hready Hsteps)
    as (ref & Href & Hlast).
  split; [|split].
  - exists ref. unfold finalized_timestamp. by rewrite Href.
  - intros c. run_backend.
    by destruct (env_L1BlockRefByLabel env (w_trace w) c eth.Finalized).
  - intros id payloadBytes.
    by destruct (MessageSafety_frame id payloadBytes w) as [-> _].
Qed.
End Tracker.

(** ** The theorems on the scenario of the specification *)

Section OnScenario.
Import Scenario.

(** Chain 10, block 100, log 2, finalized timestamp 1500. *)
Lemma finalized_when_covered_witness :
  fst (MessageSafety env id payload (world 1500)) = Val (Finalized, None).
Proof.
  apply (finalized_when_covered env (world 1500) id payload 7%nat
           ltac:(evaluate) {| types.Time := 1000 |} (log_at 2 addrA payload)
           ltac:(evaluate) ltac:(evaluate) ltac:(evaluate) ltac:(evaluate)
           ltac:(evaluate) (ref_at 1500)
           ltac:(evaluate) ltac:(evaluate) ltac:(evaluate) ltac:(evaluate)
           ltac:(evaluate)).
  cbn. lia.
Defined.

(** The same with finalized timestamp 500. *)
Lemma undetermined_when_not_covered_witness :
  fst (MessageSafety env id payload (world 500)) = Val (Invalid, None).
Proof.
  apply (undetermined_when_not_covered env (world 500) id payload 7%nat
           ltac:(evaluate) {| types.Time := 1000 |} (log_at 2 addrA payload)
           ltac:(evaluate) ltac:(evaluate) ltac:(evaluate) ltac:(evaluate)
           ltac:(evaluate) (ref_at 500)
           ltac:(evaluate) ltac:(evaluate) ltac:(evaluate) ltac:(evaluate)
           ltac:(evaluate)).
  cbn. lia.
Defined.

(** The same message claimed for another origin. *)
Lemma integrity_mismatch_rejected_witness :
  fst (MessageSafety env (with_Origin addrB id) payload (world 1500))
    = Val (Invalid, Some ErrOriginMismatch).
Proof.
  unshelve epose proof
    (integrity_mismatch_rejected env (world 1500) (with_Origin addrB id)
       payload 7%nat _ {| types.Time := 1000 |} (log_at 2 addrA payload)
       _ _ _ _ _ _) as (err & Hrun & _ & _ & Horigin & _).
  1-6: evaluate.
  { right; right; left. cbn. discriminate. }
  rewrite Hrun. f_equal. f_equal. f_equal.
  apply Horigin. repeat split; [reflexivity..|]. cbn. discriminate.
Defined.

(** The same message with [LogIndex] 5, beyond the three logs of the block. *)
Lemma log_index_bounds_checked_witness :
  fst (MessageSafety env (with_LogIndex 5 id) payload (world 1500))
    = Val (Invalid, Some ErrInvalidLogIndex) /\
  fst (MessageSafety env (with_LogIndex 5 id) payload (world 1500))
    <> Panic index_out_of_range.
Proof.
  destruct (log_index_bounds_checked env (world 1500) (with_LogIndex 5 id)
              payload ltac:(evaluate)) as [Hbounds Hsafe].
  split; [|exact Hsafe].
  apply (Hbounds 7%nat {| types.Time := 1000 |}); evaluate.
Defined.

(** Chain 11 is not registered. *)
Lemma unconfigured_chain_rejected_witness :
  fst (MessageSafety env (with_ChainId 11 id) payload (world 1500))
    = Val (Invalid, Some (ErrPeerNotConfigured 11)).
Proof.
  exact (proj1 (unconfigured_chain_rejected env (world 1500)
                  (with_ChainId 11 id) payload
                  ltac:(evaluate) ltac:(evaluate))).
Defined.

(** C5, as stated, fails on the chain id [2^64 + 10]: it is not a key of
    the peer map, yet the call is not rejected; it resolves to the peer of
    chain 10, fetches, reads the tracker and returns [Finalized]. *)
Lemma unconfigured_chain_rejected_counterexample :
  l2PeerNodes (w_backend (world 1500)) !! ChainId id_wide = None /\
  fst (MessageSafety env id_wide payload (world 1500)) = Val (Finalized, None) /\
  fst (MessageSafety env id_wide payload (world 1500))
    <> Val (Invalid, Some (ErrPeerNotConfigured (ChainId id_wide))) /\
  existsb is_fetch
    (w_trace (snd (MessageSafety env id_wide payload (world 1500)))) = true /\
  existsb is_tracker_read
    (w_trace (snd (MessageSafety env id_wide payload (world 1500)))) = true.
Proof.
  assert (Hrun : fst (MessageSafety env id_wide payload (world 1500))
                   = Val (Finalized, None)) by (vm_compute; reflexivity).
  split; [vm_compute; reflexivity|]. split; [exact Hrun|].
  split; [rewrite Hrun; discriminate|].
  split; vm_compute; reflexivity.
Qed.

(** The peer answers that the block does not exist. *)
Lemma fetch_failure_aborts_witness :
  fst (MessageSafety env_missing_block id payload (world 1500))
    = Val (Invalid, Some (ErrBlockNotExist 100)).
Proof.
  unshelve epose proof
    (fetch_failure_aborts env_missing_block (world 1500) id payload 7%nat _ _)
    as (err & Hrun & _ & _ & Hblock & _).
  { evaluate. }
  { right; right; right. reflexivity. }
  rewrite Hrun. f_equal. f_equal. f_equal.
  apply Hblock; reflexivity.
Defined.

(** The call of the scenario returns a pair, and the pair is well formed. *)
Lemma error_pairs_with_Invalid_witness :
  exists label err,
    fst (MessageSafety env id payload (world 1500)) = Val (label, err) /\
    (err <> None -> label = Invalid) /\ (label <> Invalid -> err = None).
Proof.
  destruct (error_pairs_with_Invalid env (world 1500) id payload)
    as [Hpair Htotal].
  destruct (Htotal ltac:(evaluate) ltac:(eexists; reflexivity))
    as (label & err & Hrun).
  exists label, err. split; [exact Hrun|]. exact (Hpair label err Hrun).
Defined.

(** Without a finalized reference the backend does not start; with one, the
    fetched reference is stored. *)
Lemma construction_failures_are_fatal_witness :
  (exists err,
      fst (NewSuperchainBackend env_no_ref cfg order empty_world)
        = Val (None, Some err)) /\
  (exists ref,
      l2FinalizedBlockRef
        (w_backend (snd (NewSuperchainBackend env cfg order empty_world)))
        = Some ref).
Proof.
  split.
  - apply (construction_failures_are_fatal env_no_ref cfg order empty_world
             ltac:(reflexivity)).
    intros h c. eexists. reflexivity.
  - destruct (construction_failures_are_fatal env cfg order empty_world
                ltac:(reflexivity)) as (_ & _ & t & _ & _ & Hready).
    destruct (Hready ltac:(evaluate)) as (ref & Href & _).
    exists ref. exact Href.
Defined.

(** After a tick whose fetch fails, the backend still holds the reference of
    the initial fetch. *)
Lemma stale_reference_kept_witness :
  exists ref,
    l2FinalizedBlockRef (w_backend after_failed_tick) = Some ref /\
    last_fetched (w_trace after_failed_tick) = Some ref /\
    finalized_timestamp after_failed_tick = Some (eth.Time ref).
Proof.
  apply (stale_reference_kept env_flaky cfg order empty_world after_failed_tick
           ltac:(evaluate)).
  apply rtc_once. apply step_poll.
Defined.

(** The call for chain id [2^64 + 10] sends its batch to the peer of chain
    10. *)
Lemma chain_resolution_low_64_bits_witness :
  exists t,
    w_trace (snd (MessageSafety env id_wide payload (world 1500)))
      = w_trace (world 1500) ++ t /\
    List.filter is_fetch t =
      [EvBatchCallContext 7%nat (batchElems id_wide)
         (fetched env (world 1500) id_wide 7%nat)].
Proof.
  destruct (chain_resolution_low_64_bits env id_wide id
              ltac:(evaluate) ltac:(evaluate) ltac:(evaluate))
    as [_ Hcalls].
  destruct (Hcalls (world 1500) payload payload) as (_ & _ & Hpeer & _).
  exact (proj2 (Hpeer 7%nat ltac:(evaluate))).
Defined.
End OnScenario.

(** ** Further properties of the verifier *)

Section VerifierOutcomes.
Context (env : Env) {enc : PayloadEncoding}.
Variables (w : World) (id : MessageIdentifier) (payloadBytes : list byte).

(** A nil error is returned only after every check has passed, and the
    label then tells whether the timestamp is covered. *)
Lemma nil_error_inv (label : MessageSafetyLabel) :
  fst (MessageSafety env id payloadBytes w) = Val (label, None) ->
  exists ref,
    verified env w id payloadBytes ref /\
    (label = Finalized <-> Timestamp id <= eth.Time ref).
Proof.
  unfold verified. run_verifier. split_run; intros Hrun; try discriminate Hrun;
    injection Hrun as <-;
    (eexists; split;
     [ do 3 eexists; repeat split; try eassumption; try congruence;
       try (destruct (rpc.Error0 _); [exfalso; intuition congruence | done]);
       try (destruct (rpc.Error1 _); [exfalso; intuition congruence | done]);
       lia
     | split; [done | intros; first [done | lia]] ]).
Qed.

(** The outcome of a call whose checks all pass. *)
Lemma verified_outcome (ref : eth.L1BlockRef) :
  verified env w id payloadBytes ref ->
  fst (MessageSafety env id payloadBytes w) =
    Val (if bool_decide (Timestamp id <= eth.Time ref)
         then (Finalized, None) else (Invalid, None)).
Proof.
  intros (l2Node & hdr & log & Hresolve & Hcall & Helem0 & Helem1 &
               Hheader & Hlen & Hlog & Hindex & Hpayload & Horigin & Htime & Href).
  run_verifier.
  rewrite Hresolve; cbn. rewrite Hcall, Helem0, Helem1, Hheader; cbn.
  rewrite bool_decide_eq_false_2 by lia.
  rewrite Hlog; cbn.
  decide_checks; rewrite Href; cbn; decide_checks; done.
Qed.
(** A call always returns a pair when [LogIndex] is in the unsigned range
    and a reference is stored. *)
Lemma MessageSafety_returns :
  uint64 (LogIndex id) ->
  is_Some (l2FinalizedBlockRef (w_backend w)) ->
  exists label err, fst (MessageSafety env id payloadBytes w) = Val (label, err).
Proof.
  intros Hrange [ref Href]. run_verifier.
  split_run; eauto; try congruence;
    match goal with
    | Hlog : _ !! _ = None |- _ => apply lookup_ge_None in Hlog
    end;
    unfold uint64 in Hrange; lia.
Qed.

(** X1: [Finalized] is returned exactly when the peer resolves, the fetch
    is clean, the block exists, the log at [LogIndex] passes the four
    content checks and the timestamp is at most the stored finalized
    timestamp. *)
Theorem finalized_iff_verified_and_covered :
  fst (MessageSafety env id payloadBytes w) = Val (Finalized, None) <->
  exists ref, verified env w id payloadBytes ref /\ Timestamp id <= eth.Time ref.
Proof.
  split.
  - intros Hrun. destruct (nil_error_inv _ Hrun) as (ref & Hverified & Hlabel).
    exists ref. split; [done|]. by apply Hlabel.
  - intros (ref & Hverified & Hcovered).
    rewrite (verified_outcome ref Hverified). by rewrite bool_decide_eq_true_2.
Qed.

(** X2: [Invalid] with a nil error is returned exactly when every check
    passes and the timestamp is beyond the stored finalized timestamp: it
    never stands for a failed check. *)
Theorem invalid_nil_iff_verified_and_not_covered :
  fst (MessageSafety env id payloadBytes w) = Val (Invalid, None) <->
  exists ref, verified env w id payloadBytes ref /\ Timestamp id > eth.Time ref.
Proof.
  split.
  - intros Hrun. destruct (nil_error_inv _ Hrun) as (ref & Hverified & Hlabel).
    exists ref. split; [done|].
    destruct (decide (Timestamp id <= eth.Time ref)) as [Hle|]; [|lia].
    apply Hlabel in Hle. discriminate.
  - intros (ref & Hverified & Hbeyond).
    rewrite (verified_outcome ref Hverified).
    rewrite bool_decide_eq_false_2; [done | lia].
Qed.


(** X4: for a chain id in the unsigned 64-bit range the peer map is read at
    the chain id itself: the call is rejected as unconfigured exactly when
    the chain id is not a key, and the error names that chain id. *)
Theorem in_range_chain_rejected_iff (c : Z) :
  uint64 (ChainId id) ->
  fst (MessageSafety env id payloadBytes w)
    = Val (Invalid, Some (ErrPeerNotConfigured c)) <->
  l2PeerNodes (w_backend w) !! ChainId id = None /\ c = ChainId id.
Proof.
  intros [Hpos Hlt]. rewrite rejected_unconfigured_iff.
  unfold big.Uint64. rewrite Z.abs_eq by done.
  by rewrite Z.mod_small by lia.
Qed.

End VerifierOutcomes.

Section TwoWorlds.
Context (env : Env) {enc : PayloadEncoding}.
Variables (w w' : World) (id : MessageIdentifier) (payloadBytes : list byte).

(** The two worlds have the same peers and the same events so far. *)
Hypothesis Hsame : same_up_to_tracker w w'.

Lemma verified_same_up_to_tracker (ref ref' : eth.L1BlockRef) :
  l2FinalizedBlockRef (w_backend w') = Some ref' ->
  verified env w id payloadBytes ref ->
  verified env w' id payloadBytes ref'.
Proof.
  destruct Hsame as [Hpeers Htrace].
  intros Href' (l2Node & hdr & log & Hverified).
  exists l2Node, hdr, log. unfold fetched in *.
  rewrite <- Hpeers, <- Htrace. intuition.
Qed.

(** X5: finality is monotone in the tracker. A call that is [Finalized]
    stays [Finalized] when the stored reference is replaced by one with a
    timestamp at least as large, everything else being equal. *)
Theorem finalized_monotone (ref ref' : eth.L1BlockRef) :
  l2FinalizedBlockRef (w_backend w) = Some ref ->
  l2FinalizedBlockRef (w_backend w') = Some ref' ->
  eth.Time ref <= eth.Time ref' ->
  fst (MessageSafety env id payloadBytes w) = Val (Finalized, None) ->
  fst (MessageSafety env id payloadBytes w') = Val (Finalized, None).
Proof.
  intros Href Href' Hle Hrun.
  destruct (nil_error_inv env w id payloadBytes _ Hrun)
    as (ref0 & Hverified & Hlabel).
  assert (ref0 = ref) as ->.
  { destruct Hverified as (? & ? & ? & Hv). intuition congruence. }
  rewrite (verified_outcome env w' id payloadBytes ref'
             (verified_same_up_to_tracker ref ref' Href' Hverified)).
  assert (Timestamp id <= eth.Time ref) by (by apply Hlabel).
  rewrite bool_decide_eq_true_2; [done | lia].
Qed.

(** X6: an error does not depend on the tracker. A call that returns an
    error returns the same error whatever reference is stored, everything
    else being equal. *)
Theorem errors_ignore_tracker (label : MessageSafetyLabel) (err : error) :
  fst (MessageSafety env id payloadBytes w) = Val (label, Some err) ->
  fst (MessageSafety env id payloadBytes w') = Val (label, Some err).
Proof.
  destruct Hsame as [Hpeers Htrace]. run_verifier.
  rewrite <- Hpeers, <- Htrace.
  split_run; intros Hrun; first [discriminate Hrun | exact Hrun].
Qed.
End TwoWorlds.

(** ** Further properties of the constructor *)

Section Constructor.
Context (env : Env) {enc : PayloadEncoding}.

(** The loop over the peers in full: what it records, what it registers and
    which dial its error reports. *)
Lemma connect_peers_trace (peers : list (Z * string)) (w : World) :
  exists e tp,
    fst (connect_peers env peers w) = Val e /\
    w_trace (snd (connect_peers env peers w)) = w_trace w ++ tp /\
    l2FinalizedBlockRef (w_backend (snd (connect_peers env peers w)))
      = l2FinalizedBlockRef (w_backend w) /\
    l2FinalizedHeadSub (w_backend (snd (connect_peers env peers w)))
      = l2FinalizedHeadSub (w_backend w) /\
    forallb is_dial tp = true /\
    match e with
    | Some err =>
        exists tp0 chainId addr c,
          tp = tp0 ++ [EvNewRPC addr (inl c)] /\
          err = ErrConnectPeer chainId c /\
          (chainId, addr) ∈ peers /\
          existsb is_failed_call tp0 = false
    | None =>
        existsb is_failed_call tp = false /\
        length tp = length peers /\
        (forall chainId,
            is_Some (l2PeerNodes (w_backend (snd (connect_peers env peers w)))
                       !! chainId) <->
            is_Some (l2PeerNodes (w_backend w) !! chainId) \/
            exists addr, (chainId, addr) ∈ peers) /\
        (forall chainId node,
            l2PeerNodes (w_backend (snd (connect_peers env peers w))) !! chainId
              = Some node ->
            l2PeerNodes (w_backend w) !! chainId = Some node \/
            exists addr, (chainId, addr) ∈ peers /\ EvNewRPC addr (inr node) ∈ tp)
    end.
Proof.
  revert w. induction peers as [|[chainId addr] rest IH]; intros w.
  - exists None, []. cbn. rewrite app_nil_r. repeat split; try done; eauto.
    intros [?|[? Hin]]; [done|]. by apply elem_of_nil in Hin.
  - cbn [connect_peers]. run_backend.
    destruct (env_NewRPC env (w_trace w) addr) as [c|l2Node] eqn:Hdial; cbn.
    + exists (Some (ErrConnectPeer chainId c)), [EvNewRPC addr (inl c)].
      repeat split; try done.
      exists [], chainId, addr, c. repeat split; try done. apply list_elem_of_here.
    + match goal with
      | |- context [connect_peers env rest ?w1] =>
          destruct (IH w1) as (e & tp & He & Ht & Href & Hsub & Hdials & Hcases)
      end.
      cbn in Ht, Href, Hsub, Hcases.
      exists e, (EvNewRPC addr (inr l2Node) :: tp).
      split; [done|]. split; [by rewrite Ht, <- app_assoc|].
      split; [done|]. split; [done|]. split; [done|].
      destruct e as [err|].
      * destruct Hcases as (tp0 & chainId' & addr' & c & -> & -> & Hin & Hok).
        exists (EvNewRPC addr (inr l2Node) :: tp0), chainId', addr', c.
        repeat split; try done. by apply list_elem_of_further.
      * destruct Hcases as (Hok & Hlen & Hdom & Hnodes).
        split; [done|]. split; [cbn; by rewrite Hlen|]. split.
        -- intros k. rewrite Hdom. destruct (decide (chainId = k)) as [->|Hne].
           ++ rewrite lookup_insert_eq. split; [|eauto].
              intros _. right. exists addr. apply list_elem_of_here.
           ++ rewrite lookup_insert_ne by done. split.
              ** intros [?|[addr' Hin]]; [by left|].
                 right. exists addr'. by apply list_elem_of_further.
              ** intros [?|[addr' Hin]]; [by left|].
                 apply elem_of_cons in Hin as [[= ? ?]|Hin]; [done|].
                 right. by exists addr'.
        -- intros k node Hk. destruct (Hnodes k node Hk) as [Hbefore|(addr' & Hin & Hev)].
           ++ destruct (decide (chainId = k)) as [->|Hne].
              ** rewrite lookup_insert_eq in Hbefore. injection Hbefore as ->.
                 right. exists addr. split; apply list_elem_of_here.
              ** rewrite lookup_insert_ne in Hbefore by done. by left.
           ++ right. exists addr'. split; by apply list_elem_of_further.
Qed.
(** The runs of the constructor: either it stops at the first collaborator
    call that fails and reports it, or every call succeeds, the poller is
    started last and the backend holds the dialed peers and the fetched
    reference. *)
Lemma NewSuperchainBackend_cases (cfg : SuperchainConfig)
    (order : list (Z * string)) (w : World) :
  exists t,
    w_trace (snd (NewSuperchainBackend env cfg order w)) = w_trace w ++ t /\
    ((exists err t0 e,
         fst (NewSuperchainBackend env cfg order w) = Val (None, Some err) /\
         t = t0 ++ [e] /\
         existsb is_failed_call t0 = false /\
         existsb is_poll_start t = false /\
         match err with
         | ErrConnectL2 c => t0 = [] /\ e = EvNewRPC (L2NodeAddr cfg) (inl c)
         | ErrConnectPeer chainId c =>
             exists addr, (chainId, addr) ∈ order /\ e = EvNewRPC addr (inl c)
         | ErrConstructL2Client c =>
             exists node, e = EvNewL1Client node l2ClientConfig (inl c)
         | ErrQueryFinalized c =>
             exists l2Client, e = EvL1BlockRefByLabel l2Client eth.Finalized (inl c)
         | _ => False
         end) \/
     (exists ref l2Client t0,
         fst (NewSuperchainBackend env cfg order w) = Val (Some this_backend, None) /\
         t = t0 ++ [EvL1BlockRefByLabel l2Client eth.Finalized (inr ref);
                    EvPollBlockChanges l2Client eth.Finalized
                      (384 * time.Second) (10 * time.Second)] /\
         existsb is_failed_call t0 = false /\
         existsb is_poll_start t0 = false /\
         occurrences is_dial t0 = S (length order) /\
         l2FinalizedBlockRef (w_backend (snd (NewSuperchainBackend env cfg order w)))
           = Some ref /\
         is_Some (l2FinalizedHeadSub
                    (w_backend (snd (NewSuperchainBackend env cfg order w)))) /\
         (forall chainId,
             is_Some (l2PeerNodes
                        (w_backend (snd (NewSuperchainBackend env cfg order w)))
                        !! chainId) <->
             exists addr, (chainId, addr) ∈ order) /\
         (forall chainId node,
             l2PeerNodes (w_backend (snd (NewSuperchainBackend env cfg order w)))
               !! chainId = Some node ->
             exists addr, (chainId, addr) ∈ order /\ EvNewRPC addr (inr node) ∈ t0))).
Proof.
  run_backend.
  destruct (env_NewRPC env (w_trace w) (L2NodeAddr cfg)) as [c|l2Node]; cbn.
  { eexists [_]. split; [done|]. left.
    exists (ErrConnectL2 c), [], (EvNewRPC (L2NodeAddr cfg) (inl c)). done. }
  match goal with
  | |- context [connect_peers env order ?w1] =>
      destruct (connect_peers_trace order w1)
        as (e & tp & He & Ht & Href & Hsub & Hdials & Hcases);
      destruct (connect_peers env order w1) as [[e'|msg] w2]
  end; cbn in He, Ht, Href, Hsub, Hcases; [|discriminate He].
  injection He as ->.
  assert (Hnopoll : forall l, forallb is_dial l = true -> existsb is_poll_start l = false).
  { induction l as [|[] l IHl]; cbn; try done. }
  assert (Hcount : forall l, forallb is_dial l = true -> occurrences is_dial l = length l).
  { unfold occurrences. induction l as [|[] l IHl]; cbn; try done.
    intros Hl. by rewrite IHl. }
  destruct e as [err|]; cbn.
  { destruct Hcases as (tp0 & chainId & addr & c & -> & -> & Hin & Hok).
    eexists. rewrite Ht, <- app_assoc. split; [reflexivity|]. left.
    exists (ErrConnectPeer chainId c),
      (EvNewRPC (L2NodeAddr cfg) (inr l2Node) :: tp0), (EvNewRPC addr (inl c)).
    repeat split; try done; [|eauto].
    cbn. by apply Hnopoll. }
  destruct Hcases as (Hok & Hlen & Hdom & Hnodes).
  destruct (env_NewL1Client env (w_trace w2) l2Node l2ClientConfig)
    as [c|l2Client]; cbn.
  { eexists. rewrite Ht, <- !app_assoc. split; [reflexivity|]. left.
    exists (ErrConstructL2Client c), (EvNewRPC (L2NodeAddr cfg) (inr l2Node) :: tp),
      (EvNewL1Client l2Node l2ClientConfig (inl c)).
    repeat split; try done; [|eauto].
    cbn. rewrite existsb_app. cbn. by rewrite Hnopoll. }
  match goal with
  | |- context [env_L1BlockRefByLabel env ?h l2Client eth.Finalized] =>
      destruct (env_L1BlockRefByLabel env h l2Client eth.Finalized)
        as [c|finalizedHeadRef]
  end; cbn.
  { eexists. rewrite Ht, <- !app_assoc. split; [reflexivity|]. left.
    exists (ErrQueryFinalized c),
      (EvNewRPC (L2NodeAddr cfg) (inr l2Node)
         :: tp ++ [EvNewL1Client l2Node l2ClientConfig (inr l2Client)]),
      (EvL1BlockRefByLabel l2Client eth.Finalized (inl c)).
    split; [done|]. split; [cbn; by rewrite <- app_assoc|].
    split; [cbn; rewrite existsb_app; cbn; by rewrite Hok|].
    split; [cbn; rewrite !existsb_app; cbn; by rewrite Hnopoll|]. eauto. }
  eexists. rewrite Ht, <- !app_assoc. split; [reflexivity|]. right.
  exists finalizedHeadRef, l2Client,
    (EvNewRPC (L2NodeAddr cfg) (inr l2Node)
       :: tp ++ [EvNewL1Client l2Node l2ClientConfig (inr l2Client)]).
  split; [done|]. split; [cbn; by rewrite <- app_assoc|].
  split; [cbn; rewrite existsb_app; cbn; by rewrite Hok|].
  split; [cbn; rewrite existsb_app; cbn; by rewrite Hnopoll|].
  split.
  { unfold occurrences in *. cbn. rewrite List.filter_app, length_app. cbn.
    rewrite Hcount by done. lia. }
  split; [done|]. split; [eauto|]. split.
  - intros k. rewrite Hdom. cbn. rewrite lookup_empty. split.
    + intros [[? [=]]|?]; done.
    + by right.
  - intros k node Hk. destruct (Hnodes k node Hk) as [Hempty|(addr & Hin & Hev)].
    + cbn in Hempty. by rewrite lookup_empty in Hempty.
    + exists addr. split; [done|]. apply list_elem_of_further.
      apply elem_of_app. by left.
Qed.
(** The entries [order] visits are the entries of the configured map. *)
Lemma order_configured (cfg : SuperchainConfig) (order : list (Z * string))
    (chainId : Z) (addr : string) :
  order ≡ₚ map_to_list (PeerL2NodeAddrs cfg) ->
  (chainId, addr) ∈ order <-> PeerL2NodeAddrs cfg !! chainId = Some addr.
Proof. intros ->. apply elem_of_map_to_list. Qed.

(** X7: the constructor stops at the first collaborator call that fails.
    When it returns an error, the failed call is the last event it
    recorded, no call before it failed, the poller was not started, and the
    error is the one of that call: it carries its cause and, for a peer, the
    chain id configured for the dialed address. *)
Theorem constructor_stops_at_first_failure (cfg : SuperchainConfig)
    (order : list (Z * string)) (w : World) (err : error) :
  order ≡ₚ map_to_list (PeerL2NodeAddrs cfg) ->
  fst (NewSuperchainBackend env cfg order w) = Val (None, Some err) ->
  exists t0 e,
    w_trace (snd (NewSuperchainBackend env cfg order w)) = w_trace w ++ t0 ++ [e] /\
    existsb is_failed_call t0 = false /\
    is_failed_call e = true /\
    existsb is_poll_start (t0 ++ [e]) = false /\
    match err with
    | ErrConnectL2 c => t0 = [] /\ e = EvNewRPC (L2NodeAddr cfg) (inl c)
    | ErrConnectPeer chainId c =>
        exists addr,
          PeerL2NodeAddrs cfg !! chainId = Some addr /\ e = EvNewRPC addr (inl c)
    | ErrConstructL2Client c =>
        exists node, e = EvNewL1Client node l2ClientConfig (inl c)
    | ErrQueryFinalized c =>
        exists l2Client, e = EvL1BlockRefByLabel l2Client eth.Finalized (inl c)
    | _ => False
    end.
Proof.
  intros Hperm Hrun.
  destruct (NewSuperchainBackend_cases cfg order w)
    as (t & Ht & [(err' & t0 & e & Herr & -> & Hok & Hnopoll & Hreports)
                 |(ref & l2Client & t0 & Hready & _)]).
  - rewrite Herr in Hrun. injection Hrun as <-.
    exists t0, e. repeat split; try done.
    + destruct err'; try done.
      * by destruct Hreports as [_ ->].
      * by destruct Hreports as (? & _ & ->).
      * by destruct Hreports as (? & ->).
      * by destruct Hreports as (? & ->).
    + destruct err'; try done.
      destruct Hreports as (addr & Hin & ->). exists addr.
      split; [|done]. by apply (order_configured cfg order).
  - rewrite Hready in Hrun. discriminate.
Qed.

(** X8: the registry mirrors the configuration. When the constructor
    returns the backend, the keys of the peer map are the configured chain
    ids, every registered connection is the answer of a dial of the address
    configured for its chain, and the constructor dialed once per configured
    peer and once for the L2 node. *)
Theorem registry_mirrors_configuration (cfg : SuperchainConfig)
    (order : list (Z * string)) (w : World) :
  order ≡ₚ map_to_list (PeerL2NodeAddrs cfg) ->
  fst (NewSuperchainBackend env cfg order w) = Val (Some this_backend, None) ->
  dom (l2PeerNodes (w_backend (snd (NewSuperchainBackend env cfg order w))))
    = dom (PeerL2NodeAddrs cfg) /\
  exists t,
    w_trace (snd (NewSuperchainBackend env cfg order w)) = w_trace w ++ t /\
    occurrences is_dial t = S (size (PeerL2NodeAddrs cfg)) /\
    forall chainId node,
      l2PeerNodes (w_backend (snd (NewSuperchainBackend env cfg order w)))
        !! chainId = Some node ->
      exists addr,
        PeerL2NodeAddrs cfg !! chainId = Some addr /\
        EvNewRPC addr (inr node) ∈ t.
Proof.
  intros Hperm Hrun.
  destruct (NewSuperchainBackend_cases cfg order w)
    as (t & Ht & [(err' & t0 & e & Herr & _)
                 |(ref & l2Client & t0 & _ & -> & _ & _ & Hdials & _ & _ & Hdom & Hnodes)]).
  { rewrite Herr in Hrun. discriminate. }
  split.
  - apply set_eq. intros k. rewrite !elem_of_dom, Hdom. split.
    + intros [addr Hin]. exists addr. by apply (order_configured cfg order).
    + intros [addr Hin]. exists addr. by apply (order_configured cfg order).
  - exists (t0 ++ [EvL1BlockRefByLabel l2Client eth.Finalized (inr ref);
                   EvPollBlockChanges l2Client eth.Finalized
                     (384 * time.Second) (10 * time.Second)]).
    split; [done|]. split.
    + unfold occurrences in *. rewrite List.filter_app, length_app, Hdials. cbn.
      rewrite Hperm, length_map_to_list. lia.
    + intros k node Hk. destruct (Hnodes k node Hk) as (addr & Hin & Hev).
      exists addr. split; [by apply (order_configured cfg order)|].
      apply elem_of_app. by left.
Qed.

End Constructor.

(** ** A running backend *)

Section Running.
Context (env : Env) {enc : PayloadEncoding}.

Lemma step_keeps_peers (w w' : World) :
  step env w w' ->
  l2PeerNodes (w_backend w') = l2PeerNodes (w_backend w).
Proof.
  intros [c w1|id payloadBytes w1].
  - run_backend.
    by destruct (env_L1BlockRefByLabel env (w_trace w1) c eth.Finalized).
  - by destruct (MessageSafety_frame env id payloadBytes w1) as [-> _].
Qed.

Lemma steps_keep_peers (w w' : World) :
  rtc (step env) w w' ->
  l2PeerNodes (w_backend w') = l2PeerNodes (w_backend w).
Proof.
  induction 1 as [|w1 w2 w3 Hstep _ IH]; [done|].
  by rewrite IH, (step_keeps_peers w1 w2).
Qed.

Variables (cfg : SuperchainConfig) (order : list (Z * string)) (w0 w : World).

(** The constructor returned the backend, and [w] is the world after any
    number of ticks of the poller and verification calls. *)
Hypothesis Hready :
  fst (NewSuperchainBackend env cfg order w0) = Val (Some this_backend, None).
Hypothesis Hsteps :
  rtc (step env) (snd (NewSuperchainBackend env cfg order w0)) w.

Variables (id : MessageIdentifier) (payloadBytes : list byte).

(** X10: on a running backend the configured chains, and only they, are
    served. For a chain id in the unsigned 64-bit range, a call is rejected
    as unconfigured exactly when the configuration has no peer for that
    chain id, however many ticks and calls came before. *)
Theorem configured_chains_served (c : Z) :
  order ≡ₚ map_to_list (PeerL2NodeAddrs cfg) ->
  uint64 (ChainId id) ->
  fst (MessageSafety env id payloadBytes w)
    = Val (Invalid, Some (ErrPeerNotConfigured c)) <->
  PeerL2NodeAddrs cfg !! ChainId id = None /\ c = ChainId id.
Proof.
  intros Hperm [Hpos Hlt]. rewrite rejected_unconfigured_iff.
  unfold big.Uint64. rewrite Z.abs_eq, Z.mod_small by lia.
  rewrite (steps_keep_peers _ _ Hsteps).
  destruct (NewSuperchainBackend_cases env cfg order w0)
    as (t & Ht & [(err' & t0 & e & Herr & _)
                 |(ref & l2Client & t0 & _ & _ & _ & _ & _ & _ & _ & Hdom & _)]).
  { rewrite Herr in Hready. discriminate. }
  rewrite <- !not_elem_of_dom, !elem_of_dom, Hdom.
  assert ((exists addr, (ChainId id, addr) ∈ order) <->
          is_Some (PeerL2NodeAddrs cfg !! ChainId id)) as ->; [|done].
  split; intros [addr Hin]; exists addr; by apply (order_configured cfg order).
Qed.

(** X11: on a running backend a verdict is taken against the most recent
    reference the poller or the constructor fetched successfully. A call
    that returns no error is [Finalized] exactly when its timestamp is at
    most the timestamp of the last successful fetch recorded in the trace. *)
Theorem running_backend_verdict (label : MessageSafetyLabel) :
  fst (MessageSafety env id payloadBytes w) = Val (label, None) ->
  exists ref,
    last_fetched (w_trace w) = Some ref /\
    (label = Finalized <-> Timestamp id <= eth.Time ref).
Proof.
  intros Hrun.
  destruct (reachable_tracks_last_fetch env cfg order w0 w Hready Hsteps)
    as (ref & Href & Hlast).
  destruct (nil_error_inv env w id payloadBytes label Hrun)
    as (ref0 & Hverified & Hlabel).
  assert (ref0 = ref) as ->.
  { destruct Hverified as (? & ? & ? & Hv). intuition congruence. }
  by exists ref.
Qed.

(** X12: a backend the constructor returned is safe to read. After any
    number of ticks and calls its stored reference is not nil, and a
    verification call with a [LogIndex] in the unsigned range ends neither
    in the index-out-of-range panic of the log list nor in the nil
    dereference of the stored reference. The chain id and the block number
    of the identifier are integers here: the panic of the source on a nil
    big integer is outside this statement. *)
Theorem running_backend_safe_reads :
  uint64 (LogIndex id) ->
  is_Some (l2FinalizedBlockRef (w_backend w)) /\
  fst (MessageSafety env id payloadBytes w) <> Panic index_out_of_range /\
  fst (MessageSafety env id payloadBytes w) <> Panic nil_dereference.
Proof.
  intros Hrange.
  destruct (reachable_tracks_last_fetch env cfg order w0 w Hready Hsteps)
    as (ref & Href & _).
  assert (Hstored : is_Some (l2FinalizedBlockRef (w_backend w))) by by exists ref.
  split; [done|].
  destruct (MessageSafety_returns env w id payloadBytes Hrange Hstored)
    as (label & err & ->).
  split; discriminate.
Qed.
End Running.

(** ** Error messages *)

(** X13: errors built on different lines of backend.go have different
    messages, whatever chain id, block number or cause they carry: the
    message alone tells which check failed. *)
Theorem error_message_identifies_line (e1 e2 : error) :
  error_line e1 <> error_line e2 -> Error e1 <> Error e2.
Proof.
  intros Hline Hmsg. apply Hline. clear Hline.
  destruct e1, e2; try reflexivity; cbn in Hmsg; discriminate Hmsg.
Qed.

(** ** The callback and the request *)

Section Callback.
Context (env : Env) {enc : PayloadEncoding}.

(** X14: a verification call that follows the callback is decided against
    the reference the callback was given, whatever was stored before: when
    it returns no error, it is [Finalized] exactly when its timestamp is at
    most the timestamp of that reference. *)
Theorem refreshed_reference_decides (w : World) (sig : eth.L1BlockRef)
    (id : MessageIdentifier) (payloadBytes : list byte)
    (label : MessageSafetyLabel) :
  fst (MessageSafety env id payloadBytes (snd (l2FinalizedHeadSignal sig w)))
    = Val (label, None) ->
  label = Finalized <-> Timestamp id <= eth.Time sig.
Proof.
  intros Hrun.
  destruct (nil_error_inv env _ id payloadBytes label Hrun)
    as (ref & Hverified & Hlabel).
  assert (ref = sig) as ->; [|done].
  destruct Hverified as (? & ? & ? & Hv).
  assert (Hstored : l2FinalizedBlockRef
                      (w_backend (snd (l2FinalizedHeadSignal sig w))) = Some ref)
    by intuition.
  revert Hstored. run_backend. by intros [= ->].
Qed.

(** X15: the batch a call sends names one block: two identifiers lead to
    the same two requests exactly when they have the same block number. *)
Theorem batch_names_one_block (id1 id2 : MessageIdentifier) :
  batchElems id1 = batchElems id2 <-> BlockNumber id1 = BlockNumber id2.
Proof.
  unfold batchElems, hexutil.EncodeBig. split.
  - intros [= Hhex _].
    by rewrite <- (HexString.to_Z_of_Z (BlockNumber id1)),
                <- (HexString.to_Z_of_Z (BlockNumber id2)), Hhex.
  - by intros ->.
Qed.
End Callback.

(** ** The further properties on the scenario *)

Section FurtherOnScenario.
Import Scenario Cases.

(** Chain 11 is in range and not registered. *)
Lemma in_range_chain_rejected_iff_witness :
  fst (MessageSafety env (with_ChainId 11 id) payload (world 1500))
    = Val (Invalid, Some (ErrPeerNotConfigured 11)).
Proof.
  apply (in_range_chain_rejected_iff env (world 1500) (with_ChainId 11 id)
           payload 11 ltac:(evaluate)).
  split; evaluate.
Defined.

(** The message finalized at 1500 is finalized at 2000. *)
Lemma finalized_monotone_witness :
  fst (MessageSafety env id payload (world 2000)) = Val (Finalized, None).
Proof.
  apply (finalized_monotone env (world 1500) (world 2000) id payload
           ltac:(split; reflexivity) (ref_at 1500) (ref_at 2000)).
  all: evaluate.
Defined.

(** The origin mismatch is reported at 500 as it is at 1500. *)
Lemma errors_ignore_tracker_witness :
  fst (MessageSafety env id_other_origin payload (world 500))
    = Val (Invalid, Some ErrOriginMismatch).
Proof.
  apply (errors_ignore_tracker env (world 1500) (world 500) id_other_origin
           payload ltac:(split; reflexivity)).
  evaluate.
Defined.

(** The peer of chain 10 is down: the constructor stops at its dial. *)
Lemma constructor_stops_at_first_failure_witness :
  exists t0 e,
    w_trace (snd (NewSuperchainBackend env_peer_down cfg order empty_world))
      = w_trace empty_world ++ t0 ++ [e] /\
    is_failed_call e = true /\
    e = EvNewRPC "http://peer10:8545" (inl "connection refused"%string).
Proof.
  destruct (constructor_stops_at_first_failure env_peer_down cfg order
              empty_world (ErrConnectPeer 10 "connection refused")
              ltac:(reflexivity) ltac:(evaluate))
    as (t0 & e & Ht & _ & Hfailed & _ & addr & Haddr & ->).
  exists t0, (EvNewRPC addr (inl "connection refused"%string)).
  split; [exact Ht|]. split; [exact Hfailed|].
  vm_compute in Haddr. injection Haddr as <-. reflexivity.
Defined.

(** The registry of the scenario has the key 10 and no other. *)
Lemma registry_mirrors_configuration_witness :
  dom (l2PeerNodes
         (w_backend (snd (NewSuperchainBackend env cfg order empty_world))))
    = dom (PeerL2NodeAddrs cfg).
Proof.
  exact (proj1 (registry_mirrors_configuration env cfg order empty_world
                  ltac:(reflexivity) ltac:(evaluate))).
Defined.

(** After a failed tick, chain 11 is still rejected as unconfigured. *)
Lemma configured_chains_served_witness :
  fst (MessageSafety env_flaky (with_ChainId 11 id) payload after_failed_tick)
    = Val (Invalid, Some (ErrPeerNotConfigured 11)).
Proof.
  apply (configured_chains_served env_flaky cfg order empty_world
           after_failed_tick ltac:(evaluate)
           ltac:(apply rtc_once; apply step_poll)
           (with_ChainId 11 id) payload 11 ltac:(reflexivity) ltac:(evaluate)).
  split; evaluate.
Defined.

(** After a failed tick, the message of the scenario is decided against the
    reference of the initial fetch. *)
Lemma running_backend_verdict_witness :
  exists ref,
    last_fetched (w_trace after_failed_tick) = Some ref /\
    (Finalized = Finalized <-> Timestamp id <= eth.Time ref).
Proof.
  apply (running_backend_verdict env_flaky cfg order empty_world
           after_failed_tick ltac:(evaluate)
           ltac:(apply rtc_once; apply step_poll) id payload Finalized).
  evaluate.
Defined.

(** After a failed tick the reference is still stored and the call of the
    scenario panics on neither read. *)
Lemma running_backend_safe_reads_witness :
  is_Some (l2FinalizedBlockRef (w_backend after_failed_tick)) /\
  fst (MessageSafety env_flaky id payload after_failed_tick)
    <> Panic index_out_of_range /\
  fst (MessageSafety env_flaky id payload after_failed_tick)
    <> Panic nil_dereference.
Proof.
  apply (running_backend_safe_reads env_flaky cfg order empty_world
           after_failed_tick ltac:(evaluate)
           ltac:(apply rtc_once; apply step_poll) id payload).
  evaluate.
Defined.

(** A refused L2 node and a refused peer give different messages. *)
Lemma error_message_identifies_line_witness :
  Error (ErrConnectL2 "refused") <> Error (ErrConnectPeer 10 "refused").
Proof.
  apply error_message_identifies_line. cbn. lia.
Defined.

(** The callback stores the reference at 1500 over the one at 500. *)
Lemma refreshed_reference_decides_witness :
  Timestamp id <= eth.Time (ref_at 1500).
Proof.
  refine (proj1 (refreshed_reference_decides env (world 500) (ref_at 1500)
                   id payload Finalized _) _); evaluate.
Defined.
End FurtherOnScenario.
